(** * Sia host / renter core: sector cache, SwapSector, payments, skyfile
      header guard and the miner block template.

    Shallow embedding of
      - modules/host/mdm/sectors.go            (program sector cache)
      - modules/host/mdm/programdata.go        (program data buffer)
      - modules/host/mdm/instructionswapsector.go
      - modules/host/payment.go
      - modules/renter/skyfile.go              (managedCreateSkylinkFromFileNode)
      - types/block.go                         (BlockTemplate, MerkleBranches)

    Go values are modelled as follows: [uint64] as [N] with the wrap-around
    written out where arithmetic can wrap, [[]byte] as [list Byte.byte],
    a Go map used as a map as [gmap], a [map[K]struct{}] as [gset], a slice
    as a [list], an [(T, error)] return as a [result], a run-time panic as
    an explicit [Panic] outcome, and a method with a pointer receiver as a
    function that returns the updated receiver. *)

From Stdlib Require Import ZArith NArith List Ascii String DecimalString Lia.
From stdpp Require Import base gmap sets list strings.

Local Open Scope N_scope.
Set Warnings "-clear-no-such-hyp".  (* raised inside set_solver *)

(** ** Errors ([error] values built with NebulousLabs/errors and [fmt]) *)

(** [fmt.Errorf] keeps its format string and the rendered arguments;
    [errors.AddContext] and [errors.Compose] keep the wrapped errors. *)
Inductive error : Type :=
| ErrNew (msg : string)
| Errorf (fmt : string) (args : list string)
| AddContext (e : error) (ctx : string)
| Compose (e1 e2 : error).

Inductive result (A : Type) : Type :=
| Ok (a : A)
| Err (e : error).
Arguments Ok {A} a.
Arguments Err {A} e.

(** A Go call either returns or panics (index out of range, nil map, ...). *)
Inductive outcome (A : Type) : Type :=
| Ret (a : A)
| Panic (msg : string).
Arguments Ret {A} a.
Arguments Panic {A} msg.

Definition error_eqb : error -> error -> bool :=
  fix go (a b : error) : bool :=
    match a, b with
    | ErrNew m, ErrNew m' => bool_decide (m = m')
    | Errorf f l, Errorf f' l' => bool_decide (f = f') && bool_decide (l = l')
    | AddContext e c, AddContext e' c' => go e e' && bool_decide (c = c')
    | Compose x y, Compose x' y' => go x x' && go y y'
    | _, _ => false
    end.

(** [errors.Contains(base, cmp)]: [base] is [cmp], or wraps it. *)
Fixpoint Contains (base cmp : error) : bool :=
  error_eqb base cmp ||
  match base with
  | AddContext e _ => Contains e cmp
  | Compose e1 e2 => Contains e1 cmp || Contains e2 cmp
  | _ => false
  end.

(** Rendering of an unsigned integer by the [%v] verb. *)
Definition showN (n : N) : string :=
  DecimalString.NilEmpty.string_of_uint (N.to_uint n).

(** ** External collaborators of the mdm package *)

(** [crypto.ProofRange]: the half-open leaf range [Start, End). *)
Record ProofRange : Type := mkProofRange { Start : N; End : N }.

(** The [crypto] and [modules] packages are imported by the files embedded
    here; their constants and hash functions are taken as parameters. *)
Class Crypto : Type := {
  Hash : Type;
  Hash_eq_dec :: EqDecision Hash;
  Hash_countable :: Countable Hash;
  (* modules.SectorSize *)
  SectorSize : N;
  (* crypto.MerkleRoot *)
  MerkleRoot : list Byte.byte -> Hash;
  (* mdm.cachedMerkleRoot *)
  cachedMerkleRoot : list Hash -> Hash;
  (* crypto.MerkleDiffProof(ranges, numLeaves, updatedSectors, sectorRoots) *)
  MerkleDiffProof :
    list ProofRange -> N -> list (list Byte.byte) -> list Hash -> list Hash;
  (* encoding.Marshal, at type []crypto.Hash *)
  Marshal : list Hash -> list Byte.byte;
  (* crypto.Hash{} *)
  Hash_zero : Hash;
}.

(** ** mdm/sectors.go *)

Section Sectors.
Context {crypto : Crypto}.

(** [type sectors struct] *)
Record sectors : Type := mkSectors {
  sectorsRemoved : gset Hash;
  sectorsGained : gmap Hash (list Byte.byte);
  merkleRoots : list Hash;
}.

Definition newSectors (roots : list Hash) : sectors :=
  {| sectorsRemoved := ∅; sectorsGained := ∅; merkleRoots := roots |}.

(** [len(sectorData)] is a non-negative [int], so the conversion to
    [uint64] keeps its value. *)
Definition appendSector (s : sectors) (sectorData : list Byte.byte)
  : sectors * result Hash :=
  if negb (N.of_nat (length sectorData) =? SectorSize) then
    (s, Err (Errorf "trying to append data of length %v"
                    [showN (N.of_nat (length sectorData))]))
  else
    let newRoot := MerkleRoot sectorData in
    let gained := <[newRoot := sectorData]> (sectorsGained s) in
    let removed :=
      if decide (newRoot ∈ sectorsRemoved s)
      then sectorsRemoved s ∖ {[newRoot]}
      else sectorsRemoved s in
    let roots := merkleRoots s ++ [newRoot] in
    ({| sectorsRemoved := removed; sectorsGained := gained;
        merkleRoots := roots |},
     Ok (cachedMerkleRoot roots)).

(** Body of the [for _, droppedRoot := range droppedRoots] loop. *)
Definition dropRoot (c : gmap Hash (list Byte.byte) * gset Hash)
  (droppedRoot : Hash) : gmap Hash (list Byte.byte) * gset Hash :=
  match c.1 !! droppedRoot with
  | Some _ => (delete droppedRoot c.1, c.2)
  | None => (c.1, {[droppedRoot]} ∪ c.2)
  end.

Definition dropSectors (s : sectors) (numSectorsDropped : N)
  : sectors * result Hash :=
  let oldNumSectors := N.of_nat (length (merkleRoots s)) in
  if oldNumSectors <? numSectorsDropped then
    (s, Err (Errorf
      "trying to drop %v sectors which is more than the amount of sectors (%v)"
      [showN numSectorsDropped; showN oldNumSectors]))
  else
    let newNumSectors := oldNumSectors - numSectorsDropped in
    let droppedRoots := drop (N.to_nat newNumSectors) (merkleRoots s) in
    let roots := take (N.to_nat newNumSectors) (merkleRoots s) in
    let c := foldl dropRoot (sectorsGained s, sectorsRemoved s) droppedRoots in
    ({| sectorsRemoved := c.2; sectorsGained := c.1; merkleRoots := roots |},
     Ok (cachedMerkleRoot roots)).

Fixpoint hasSector_loop (roots : list Hash) (sectorRoot : Hash) : bool :=
  match roots with
  | [] => false
  | root :: rest =>
      if decide (root = sectorRoot) then true
      else hasSector_loop rest sectorRoot
  end.

Definition hasSector (s : sectors) (sectorRoot : Hash) : bool :=
  hasSector_loop (merkleRoots s) sectorRoot.

(** [host] is the [Host] interface value; only [ReadSector] is used. *)
Definition readSector (s : sectors)
  (host_ReadSector : Hash -> result (list Byte.byte)) (sectorRoot : Hash)
  : result (list Byte.byte) :=
  if negb (hasSector s sectorRoot) then
    Err (ErrNew "root not found in list of roots")
  else
    match sectorsGained s !! sectorRoot with
    | Some data => Ok data
    | None => host_ReadSector sectorRoot
    end.

(** Modelled from the spec: [swapSectors] is called by the SwapSector
    instruction and has no body in sectors.go.  Section 4.C: "swap(i, j):
    require i, j < len(roots); if i == j no-op; else exchange positions.
    Returns new list root." *)
Definition swapSectors (s : sectors) (i j : N) : sectors * result Hash :=
  match merkleRoots s !! N.to_nat i, merkleRoots s !! N.to_nat j with
  | Some ri, Some rj =>
      let roots :=
        if decide (i = j) then merkleRoots s
        else <[N.to_nat j := ri]> (<[N.to_nat i := rj]> (merkleRoots s)) in
      ({| sectorsRemoved := sectorsRemoved s;
          sectorsGained := sectorsGained s;
          merkleRoots := roots |},
       Ok (cachedMerkleRoot roots))
  | _, _ =>
      (s, Err (Errorf "sector index out of range (%v, %v)" [showN i; showN j]))
  end.

(** Operations a program can apply to its cache, and the cache they leave. *)
Inductive cacheOp : Type :=
| OpAppend (sectorData : list Byte.byte)
| OpDrop (numSectorsDropped : N)
| OpHas (sectorRoot : Hash)
| OpRead (host_ReadSector : Hash -> result (list Byte.byte)) (sectorRoot : Hash).

Definition applyOp (s : sectors) (op : cacheOp) : sectors :=
  match op with
  | OpAppend d => (appendSector s d).1
  | OpDrop n => (dropSectors s n).1
  | OpHas _ => s
  | OpRead _ _ => s
  end.

Definition runOps (s : sectors) (ops : list cacheOp) : sectors :=
  foldl applyOp s ops.

(** Disjointness of the two staging maps, as an invariant of the cache. *)
Definition cacheDisjoint (s : sectors) : Prop :=
  forall root : Hash,
    ~ (is_Some (sectorsGained s !! root) /\ root ∈ sectorsRemoved s).


(** Number of slots of a root list that hold [root]. *)
Definition occurrences (root : Hash) (roots : list Hash) : nat :=
  length (filter (fun r => r = root) roots).

(** [k] appends in sequence; the first failing append stops the program. *)
Fixpoint appendAll (s : sectors) (datas : list (list Byte.byte))
  : sectors * result Hash :=
  match datas with
  | [] => (s, Ok (cachedMerkleRoot (merkleRoots s)))
  | d :: rest =>
      match appendSector s d with
      | (s', Ok _) => appendAll s' rest
      | (s', Err e) => (s', Err e)
      end
  end.

Definition appendThenDrop (base : list Hash) (datas : list (list Byte.byte))
  : sectors * result Hash :=
  match appendAll (newSectors base) datas with
  | (s, Ok _) => dropSectors s (N.of_nat (length datas))
  | (s, Err e) => (s, Err e)
  end.

End Sectors.

(** ** mdm/programdata.go *)

(** [type ProgramData struct]; the reader [r] feeds [data] and is not
    modelled. *)
Record ProgramData : Type := mkProgramData { data : list Byte.byte }.

(** The method as the source has it. *)
Definition Uint64 (pd : ProgramData) (offset : N) : outcome (result N) :=
  Panic "not implemented yet".

Fixpoint le_uint (bs : list Byte.byte) : N :=
  match bs with
  | [] => 0
  | b :: rest => Byte.to_N b + 256 * le_uint rest
  end.

(** Modelled from the spec: the body of [ProgramData.Uint64] is a stub in
    the source.  Section 4.D: "u64_at(offset) returns the 8 bytes at offset
    interpreted little-endian; ... fails if the stream ended before reaching
    offset+8". *)
Definition Uint64_spec (pd : ProgramData) (offset : N) : outcome (result N) :=
  let bytes := take 8 (drop (N.to_nat offset) (data pd)) in
  if (length bytes <? 8)%nat then
    Ret (Err (ErrNew "offset out of bounds"))
  else Ret (Ok (le_uint bytes)).

(** ** mdm/instructionswapsector.go *)

Definition uint64_max : N := 2 ^ 64.

Section SwapSector.
Context {crypto : Crypto}.

(** The data buffer's [Uint64] and the cache's [swapSectors], as called by
    [Execute]. *)
Variable staticData_Uint64 : ProgramData -> N -> outcome (result N).
Variable sectors_swapSectors : sectors -> N -> N -> sectors * result Hash.

(** [type output struct] of the mdm package. *)
Record output : Type := mkOutput {
  NewSize : N;
  NewMerkleRoot : Hash;
  Output : list Byte.byte;
  Proof_ : list Hash;
  Error : option error;
}.

(** Modelled from the spec: [errOutput] is declared in another file of the
    mdm package; section 6 lists the error as a field of the instruction
    response, the other fields keeping their zero values. *)
Definition errOutput (err : error) : output :=
  {| NewSize := 0; NewMerkleRoot := Hash_zero; Output := []; Proof_ := [];
     Error := Some err |}.

(** [type instructionSwapSector struct]; [staticState] points to the
    program state, which [Execute] receives and returns. *)
Record instructionSwapSector : Type := mkSwapSector {
  staticData : ProgramData;
  staticMerkleProof : bool;
  sector1Offset : N;
  sector2Offset : N;
}.

Definition Execute (i : instructionSwapSector) (prevOutput : output)
  (ps : sectors) : outcome (sectors * output) :=
  match staticData_Uint64 (staticData i) (sector1Offset i) with
  | Panic m => Panic m
  | Ret (Err err) => Ret (ps, errOutput err)
  | Ret (Ok fetched1) =>
  match staticData_Uint64 (staticData i) (sector2Offset i) with
  | Panic m => Panic m
  | Ret (Err err) => Ret (ps, errOutput err)
  | Ret (Ok fetched2) =>
  (* Order the offsets. *)
  let offset1 := if fetched2 <? fetched1 then fetched2 else fetched1 in
  let offset2 := if fetched2 <? fetched1 then fetched1 else fetched2 in
  match sectors_swapSectors ps offset1 offset2 with
  | (ps', Err err) => Ret (ps', errOutput err)
  | (ps', Ok newMerkleRoot) =>
  let newRoots := merkleRoots ps' in
  match newRoots !! N.to_nat offset2 with
  | None => Panic "index out of range"
  | Some oldSector1 =>
  match newRoots !! N.to_nat offset1 with
  | None => Panic "index out of range"
  | Some oldSector2 =>
  let '(proof, data) :=
    if staticMerkleProof i then
      let ranges :=
        [ {| Start := offset1; End := (offset1 + 1) mod uint64_max |} ] in
      let oldLeafHashes := [oldSector1] in
      let '(ranges, oldLeafHashes) :=
        if negb (offset1 =? offset2) then
          (ranges ++
             [ {| Start := offset2; End := (offset2 + 1) mod uint64_max |} ],
           oldLeafHashes ++ [oldSector2])
        else (ranges, oldLeafHashes) in
      (MerkleDiffProof ranges (N.of_nat (length newRoots)) []
                       (merkleRoots ps'),
       Marshal oldLeafHashes)
    else ([], []) in
  Ret (ps', {| NewSize := NewSize prevOutput;
               NewMerkleRoot := newMerkleRoot;
               Output := data;
               Proof_ := proof;
               Error := None |})
  end end end end end.

(** The same instruction with its two argument offsets exchanged. *)
Definition swapArgs (i : instructionSwapSector) : instructionSwapSector :=
  {| staticData := staticData i;
     staticMerkleProof := staticMerkleProof i;
     sector1Offset := sector2Offset i;
     sector2Offset := sector1Offset i |}.

End SwapSector.

(** ** modules/host/payment.go *)

(** Types and constants of the [types], [modules] and [crypto] packages that
    the payment code only passes around. *)
Class PaymentTypes : Type := {
  (* the type of PaymentRequest.Type *)
  Specifier : Type;
  Specifier_eq_dec :: EqDecision Specifier;
  (* modules.PayByEphemeralAccount, modules.PayByContract *)
  PayByEphemeralAccount : Specifier;
  PayByContract : Specifier;
  PayBy_distinct : PayByEphemeralAccount <> PayByContract;
  showSpecifier : Specifier -> string;
  (* modules.AccountID and its empty value "" *)
  AccountID : Type;
  AccountID_empty : AccountID;
  (* types.Currency, types.ZeroCurrency, Currency.Sub *)
  Currency : Type;
  ZeroCurrency : Currency;
  Currency_Sub : Currency -> Currency -> Currency;
  (* types.UnlockHash, types.FileContractID, crypto.SecretKey *)
  types_UnlockHash : Type;
  FileContractID : Type;
  SecretKey : Type;
  (* fields of a FileContractRevision that the payment code copies as is:
     unlock conditions, file size, file Merkle root, window, unlock hash *)
  RevisionRest : Type;
  (* fields of a storageObligation other than RevisionTransactionSet *)
  ObligationRest : Type;
  (* the host, apart from the stream it is serving *)
  Host : Type;
}.

(** [modules.ErrUnknownPaymentMethod] *)
Definition ErrUnknownPaymentMethod : error := ErrNew "unknown payment method".

Section PaymentData.
Context {pt : PaymentTypes}.

Record SiacoinOutput : Type := mkSiacoinOutput {
  Value : Currency;
  UnlockHash : types_UnlockHash;
}.

Record FileContractRevision : Type := mkRevision {
  ParentID : FileContractID;
  NewRevisionNumber : N;
  NewValidProofOutputs : list SiacoinOutput;
  NewMissedProofOutputs : list SiacoinOutput;
  revisionRest : RevisionRest;
}.

Record TransactionSignature : Type := mkTransactionSignature {
  sig_ParentID : FileContractID;
  CoveredFields_FileContractRevisions : list N;
  PublicKeyIndex : N;
  sig_Signature : list Byte.byte;
}.

Record Transaction : Type := mkTransaction {
  FileContractRevisions : list FileContractRevision;
  TransactionSignatures : list TransactionSignature;
}.

Record storageObligation : Type := mkObligation {
  RevisionTransactionSet : list Transaction;
  obligationRest : ObligationRest;
}.

Record PaymentRequest : Type := mkPaymentRequest { Type_ : Specifier }.

Record WithdrawalMessage : Type := mkWithdrawalMessage {
  Account : AccountID;
  Expiry : N;
  Amount : Currency;
  Nonce : list Byte.byte;
}.

Record PayByEphemeralAccountRequest : Type := mkPayByEA {
  Message : WithdrawalMessage;
  ea_Signature : list Byte.byte;
  Priority : Z;
}.

Record PayByContractRequest : Type := mkPayByContract {
  ContractID : FileContractID;
  pbcr_NewRevisionNumber : N;
  NewValidProofValues : list Currency;
  NewMissedProofValues : list Currency;
  pbcr_Signature : list Byte.byte;
}.

(** [type paymentDetails struct] *)
Record paymentDetails : Type := mkPaymentDetails {
  account : AccountID;
  amount : Currency;
  addedCollateral : Currency;
}.

Definition newPaymentDetails (account : AccountID)
  (amountPaid addedCollateral : Currency) : paymentDetails :=
  {| account := account; amount := amountPaid;
     addedCollateral := addedCollateral |}.

(** Objects that travel on the stream, one per [RPCRead] / [RPCWrite];
    [MsgError] is the error reply of the RPC layer. *)
Inductive message : Type :=
| MsgPaymentRequest (pr : PaymentRequest)
| MsgPayByEphemeralAccountRequest (req : PayByEphemeralAccountRequest)
| MsgPayByEphemeralAccountResponse (amount : Currency)
| MsgPayByContractRequest (pbcr : PayByContractRequest)
| MsgPayByContractResponse (signature : list Byte.byte)
| MsgError (e : error).

(** A [siamux.Stream]: what the peer has sent and is still unread, what the
    host has written, and whether writes still go through. *)
Record stream : Type := mkStream {
  incoming : list message;
  outgoing : list message;
  writable : bool;
}.

End PaymentData.

(** Helpers of the host package and methods of the [types] package that
    [payment.go] calls and that are declared elsewhere. *)
Class HostEnv {pt : PaymentTypes} : Type := {
  (* h.staticAccountManager.callWithdraw(&msg, sig, priority) *)
  callWithdraw :
    Host -> WithdrawalMessage -> list Byte.byte -> Z -> Host * option error;
  (* h.managedGetStorageObligation(fcid) *)
  managedGetStorageObligation :
    Host -> FileContractID -> result storageObligation;
  (* h.BlockHeight() and the field h.blockHeight *)
  BlockHeight : Host -> N;
  blockHeight : Host -> N;
  (* h.secretKey *)
  secretKey : Host -> SecretKey;
  (* so.recentRevision() *)
  recentRevision : storageObligation -> result FileContractRevision;
  (* verifyPaymentRevision(existing, payment, blockHeight, expectedTransfer) *)
  verifyPaymentRevision :
    FileContractRevision -> FileContractRevision -> N -> Currency ->
    option error;
  (* createRevisionSignature(rev, renterSig, secretKey, blockHeight) *)
  createRevisionSignature :
    FileContractRevision -> TransactionSignature -> SecretKey -> N ->
    result Transaction;
  (* h.managedModifyStorageObligation(so, nil, nil) *)
  managedModifyStorageObligation :
    Host -> storageObligation -> Host * option error;
  (* txn.HostSignature() *)
  HostSignature : Transaction -> TransactionSignature;
  (* fcr.ValidHostPayout(), fcr.MissedHostOutput() *)
  ValidHostPayout : FileContractRevision -> Currency;
  MissedHostOutput : FileContractRevision -> SiacoinOutput;
}.

Section Payment.
Context {pt : PaymentTypes} {env : HostEnv}.

(** *** The host-and-stream monad

    A handler runs on the host and one stream; it returns a value or an
    error, or panics. *)
Definition M (A : Type) : Type :=
  Host * stream -> outcome ((Host * stream) * result A).

Definition mret {A : Type} (a : A) : M A := fun s => Ret (s, Ok a).

Definition mfail {A : Type} (e : error) : M A := fun s => Ret (s, Err e).

Definition mbind {A B : Type} (c : M A) (k : A -> M B) : M B :=
  fun s =>
    match c s with
    | Panic m => Panic m
    | Ret (s', Err e) => Ret (s', Err e)
    | Ret (s', Ok a) => k a s'
    end.

Notation "x <- c ;; k" := (mbind c (fun x => k))
  (at level 20, c at level 99, k at level 200, only parsing).
Notation "c ;;; k" := (mbind c (fun _ => k))
  (at level 100, k at level 200, right associativity, only parsing).

(** [errors.AddContext(err, ctx)] on the error path of a call. *)
Definition withContext {A : Type} (c : M A) (ctx : string) : M A :=
  fun s =>
    match c s with
    | Ret (s', Err e) => Ret (s', Err (AddContext e ctx))
    | r => r
    end.

Definition getHost : M Host := fun s => Ret (s, Ok s.1).

Definition liftResult {A : Type} (r : result A) : M A := fun s => Ret (s, r).

Definition liftOutcome {A : Type} (o : outcome A) : M A :=
  fun s => match o with Ret a => Ret (s, Ok a) | Panic m => Panic m end.

Definition liftHost (f : Host -> Host * option error) : M unit :=
  fun s =>
    let '(h', err) := f s.1 in
    match err with
    | None => Ret ((h', s.2), Ok tt)
    | Some e => Ret ((h', s.2), Err e)
    end.

(** [modules.RPCRead(stream, &obj)]: takes the next object off the stream
    and decodes it at the type of [obj]. *)
Definition RPCRead {A : Type} (decode : message -> option A) : M A :=
  fun s =>
    match incoming s.2 with
    | [] => Ret (s, Err (ErrNew "EOF"))
    | m :: rest =>
        let st := {| incoming := rest; outgoing := outgoing s.2;
                     writable := writable s.2 |} in
        match decode m with
        | Some a => Ret ((s.1, st), Ok a)
        | None => Ret ((s.1, st), Err (ErrNew "could not decode object"))
        end
    end.

(** [modules.RPCWrite(stream, obj)] *)
Definition RPCWrite (m : message) : M unit :=
  fun s =>
    if writable s.2 then
      Ret ((s.1, {| incoming := incoming s.2;
                    outgoing := outgoing s.2 ++ [m];
                    writable := true |}), Ok tt)
    else Ret (s, Err (ErrNew "stream closed")).

Definition asPaymentRequest (m : message) : option PaymentRequest :=
  match m with MsgPaymentRequest pr => Some pr | _ => None end.

Definition asPayByEphemeralAccountRequest (m : message)
  : option PayByEphemeralAccountRequest :=
  match m with MsgPayByEphemeralAccountRequest r => Some r | _ => None end.

Definition asPayByContractRequest (m : message) : option PayByContractRequest :=
  match m with MsgPayByContractRequest r => Some r | _ => None end.

(** *** The payment handlers *)

Definition staticPayByEphemeralAccount : M paymentDetails :=
  req <- withContext (RPCRead asPayByEphemeralAccountRequest)
           "Could not read PayByEphemeralAccountRequest" ;;
  withContext
    (liftHost (fun h => callWithdraw h (Message req) (ea_Signature req)
                          (Priority req)))
    "Withdraw failed" ;;;
  withContext
    (RPCWrite (MsgPayByEphemeralAccountResponse (Amount (Message req))))
    "Could not send PayByEphemeralAccountResponse" ;;;
  mret (newPaymentDetails (Account (Message req)) (Amount (Message req))
          ZeroCurrency).

(** The loop [for i, v := range values { outputs[i] = SiacoinOutput{v,
    recent[i].UnlockHash} }], from index [i] on. *)
Fixpoint outputsFromValues (i : nat) (values : list Currency)
  (recent : list SiacoinOutput) : outcome (list SiacoinOutput) :=
  match values with
  | [] => Ret []
  | v :: rest =>
      match recent !! i with
      | None => Panic "index out of range"
      | Some o =>
          match outputsFromValues (S i) rest recent with
          | Panic m => Panic m
          | Ret outs =>
              Ret ({| Value := v; UnlockHash := UnlockHash o |} :: outs)
          end
      end
  end.

Definition revisionFromRequest (recent : FileContractRevision)
  (pbcr : PayByContractRequest) : outcome FileContractRevision :=
  match outputsFromValues 0 (NewValidProofValues pbcr)
          (NewValidProofOutputs recent) with
  | Panic m => Panic m
  | Ret valid =>
      match outputsFromValues 0 (NewMissedProofValues pbcr)
              (NewMissedProofOutputs recent) with
      | Panic m => Panic m
      | Ret missed =>
          Ret {| ParentID := ParentID recent;
                 NewRevisionNumber := pbcr_NewRevisionNumber pbcr;
                 NewValidProofOutputs := valid;
                 NewMissedProofOutputs := missed;
                 revisionRest := revisionRest recent |}
      end
  end.

(** [crypto.Hash(recent.ParentID)] converts between two 32-byte array
    types and keeps the bytes. *)
Definition signatureFromRequest (recent : FileContractRevision)
  (pbcr : PayByContractRequest) : TransactionSignature :=
  {| sig_ParentID := ParentID recent;
     CoveredFields_FileContractRevisions := [0];
     PublicKeyIndex := 0;
     sig_Signature := pbcr_Signature pbcr |}.

Definition verifyPayByContractRevision
  (current payment : FileContractRevision) (blockHeight : N)
  : result (Currency * Currency) :=
  match verifyPaymentRevision current payment blockHeight ZeroCurrency with
  | Some err => Err err
  | None =>
      let amount :=
        Currency_Sub (ValidHostPayout payment) (ValidHostPayout current) in
      let collateral :=
        Currency_Sub (Value (MissedHostOutput current))
                     (Value (MissedHostOutput payment)) in
      Ok (amount, collateral)
  end.

(** [copy(sig[:], b)] into a zeroed [crypto.Signature] (64 bytes). *)
Definition copySignature (b : list Byte.byte) : list Byte.byte :=
  take 64 (b ++ replicate 64 Byte.x00).

(** The obligation lock taken at the start is released by the deferred
    unlock on every return; it is not part of the sequential state. *)
Definition managedPayByContract : M paymentDetails :=
  pbcr <- withContext (RPCRead asPayByContractRequest)
            "Could not read PayByContractRequest" ;;
  let fcid := ContractID pbcr in
  h <- getHost ;;
  so <- withContext (liftResult (managedGetStorageObligation h fcid))
          "Could not fetch storage obligation" ;;
  let bh := BlockHeight h in
  currentRevision <- withContext (liftResult (recentRevision so))
                       "Could not find the most recent revision" ;;
  paymentRevision <- liftOutcome (revisionFromRequest currentRevision pbcr) ;;
  paid <- withContext
            (liftResult
               (verifyPayByContractRevision currentRevision paymentRevision bh))
            "Invalid payment revision" ;;
  let renterSignature := signatureFromRequest currentRevision pbcr in
  txn <- withContext
           (liftResult
              (createRevisionSignature paymentRevision renterSignature
                 (secretKey h) (blockHeight h)))
           "Could not create revision signature" ;;
  hostSignature <-
    liftOutcome
      (match TransactionSignatures txn !! 1%nat with
       | Some sg => Ret sg
       | None => Panic "index out of range"
       end) ;;
  let so' :=
    {| RevisionTransactionSet :=
         [ {| FileContractRevisions := [paymentRevision];
              TransactionSignatures := [renterSignature; hostSignature] |} ];
       obligationRest := obligationRest so |} in
  withContext (liftHost (fun h => managedModifyStorageObligation h so'))
    "Could not modify storage obligation" ;;;
  let sig := copySignature (sig_Signature (HostSignature txn)) in
  withContext (RPCWrite (MsgPayByContractResponse sig))
    "Could not send PayByContractResponse" ;;;
  mret (newPaymentDetails AccountID_empty paid.1 paid.2).

Definition ProcessPayment : M paymentDetails :=
  pr <- withContext (RPCRead asPaymentRequest)
          "Could not read payment request" ;;
  if decide (Type_ pr = PayByEphemeralAccount) then
    staticPayByEphemeralAccount
  else if decide (Type_ pr = PayByContract) then
    managedPayByContract
  else
    mfail (Compose
             (Errorf "Could not handle payment method %v"
                     [showSpecifier (Type_ pr)])
             ErrUnknownPaymentMethod).

End Payment.

(** ** modules/renter/skyfile.go *)

(** [fmt.Sprintf] for formats that only use the [%v] verb; the arguments are
    already rendered. *)
Fixpoint Sprintf (fmt : string) (args : list string) : string :=
  match fmt with
  | EmptyString => EmptyString
  | String "%"%char (String "v"%char rest) =>
      match args with
      | a :: args' => a +:+ Sprintf rest args'
      | [] => "%!v(MISSING)" +:+ Sprintf rest []
      end
  | String c rest => String c (Sprintf rest args)
  end.

Definition ErrInvalidMetadata : error := ErrNew "metadata is invalid".
Definition ErrMetadataTooBig : error := ErrNew "metadata exceeds sectorsize".
Definition ErrSkylinkBlocked : error := ErrNew "skylink is blocked".

(** [errors.AddContext] and [errors.Compose] on possibly-nil errors. *)
Definition AddContext_nil (err : option error) (ctx : string) : option error :=
  match err with Some e => Some (AddContext e ctx) | None => None end.

Definition Compose_nil (e1 e2 : option error) : option error :=
  match e1, e2 with
  | Some a, Some b => Some (Compose a b)
  | Some a, None => Some a
  | None, Some b => Some b
  | None, None => None
  end.

(** Types, constants and helpers of the [modules], [crypto], [filesystem]
    and [renter] packages used by the skylink creation path. *)
Class RenterEnv {crypto : Crypto} : Type := {
  SiaPath : Type;
  SkyfileMetadata : Type;
  FileNode : Type;
  Skylink : Type;
  Skylink_zero : Skylink;
  Skykey : Type;
  CipherType : Type;
  TypePlain : CipherType;
  ErasureCoder : Type;
  ErasureCodeType : Type;
  ErasureCodeType_eq_dec :: EqDecision ErasureCodeType;
  ECReedSolomonSubShards64 : ErasureCodeType;
  Reader : Type;
  (* modules.SkyfileLayoutSize, modules.SkyfileVersion, len(sl.KeyData),
     SkyfileDefaultBaseChunkRedundancy, crypto.SegmentSize *)
  SkyfileLayoutSize : N;
  SkyfileVersion : N;
  KeyDataLen : nat;
  SkyfileDefaultBaseChunkRedundancy : N;
  SegmentSize : N;
  ValidateSkyfileMetadata : SkyfileMetadata -> option error;
  SkyfileMetadataBytes : SkyfileMetadata -> result (list Byte.byte);
  (* fileNode.Metadata().Skylinks, skylink.LoadString,
     r.staticSkynetBlocklist.IsBlocked *)
  fileNode_Skylinks : FileNode -> list string;
  Skylink_LoadString : string -> result Skylink;
  IsBlocked : Skylink -> bool;
  (* r.DeleteFile *)
  DeleteFile : SiaPath -> option error;
  (* fileNode.MasterKey().Key(), .Type(); fileNode.ErasureCode() *)
  MasterKey_Key : FileNode -> list Byte.byte;
  MasterKey_Type : FileNode -> CipherType;
  ErasureCode_Type : FileNode -> ErasureCodeType;
  ErasureCode_MinPieces : FileNode -> Z;
  ErasureCode_NumPieces : FileNode -> Z;
  fileNode_Size : FileNode -> N;
  skyfileEncodeFanout : FileNode -> option Reader -> result (list Byte.byte);
  (* modules.NewRSSubCode *)
  NewRSSubCode : Z -> Z -> N -> result ErasureCoder;
  (* r.callUploadStreamFromReader, fileNode.AddSkylink, fileNode.Close *)
  callUploadStreamFromReader_ :
    SiaPath -> ErasureCoder -> bool -> CipherType -> list Byte.byte ->
    result FileNode;
  AddSkylink : FileNode -> Skylink -> option error;
  fileNode_Close : FileNode -> option error;
  (* modules.NewSkylinkV1 *)
  NewSkylinkV1 : Hash -> N -> N -> result Skylink;
}.

Section Skyfile.
Context {crypto : Crypto} {renv : RenterEnv}.

Record SkyfileUploadParameters : Type := mkSUP {
  sup_SiaPath : SiaPath;
  DryRun : bool;
  sup_Force : bool;
  BaseChunkRedundancy : N;
  FileSpecificSkykey : Skykey;
}.

Record FileUploadParams : Type := mkFUP {
  fup_SiaPath : SiaPath;
  ErasureCode : ErasureCoder;
  fup_Force : bool;
  DisablePartialChunk : bool;
  Repair : bool;
  fup_CipherType : CipherType;
}.

Record SkyfileLayout : Type := mkLayout {
  Version : N;
  Filesize : N;
  MetadataSize : N;
  FanoutSize : N;
  FanoutDataPieces : Z;
  FanoutParityPieces : Z;
  sl_CipherType : CipherType;
  KeyData : list Byte.byte;
}.

(** Calls with an effect outside the renter's memory, in program order. *)
Inductive event : Type :=
| EvDeleteFile (path : SiaPath)
| EvBuildBaseSector (sl : SkyfileLayout)
    (fanoutBytes metadataBytes : list Byte.byte)
| EvEncryptBaseSector
| EvAddSkylink (fileNode : FileNode) (skylink : Skylink)
| EvUploadStream (up : FileUploadParams) (baseSector : list Byte.byte)
| EvClose (fileNode : FileNode).

(** Helpers whose signatures mention the records declared above:
    [encryptionEnabled(&sup)], [sl.Encode()], [modules.BuildBaseSector] and
    [encryptBaseSectorWithSkykey], which rewrites the base sector in place. *)
Variable encryptionEnabled : SkyfileUploadParameters -> bool.
Variable SkyfileLayout_Encode : SkyfileLayout -> list Byte.byte.
Variable BuildBaseSector :
  list Byte.byte -> list Byte.byte -> list Byte.byte -> list Byte.byte ->
  list Byte.byte * N.
Variable encryptBaseSectorWithSkykey :
  list Byte.byte -> SkyfileLayout -> Skykey -> result (list Byte.byte).

Definition skyfileEstablishDefaults (lup : SkyfileUploadParameters)
  : SkyfileUploadParameters :=
  if BaseChunkRedundancy lup =? 0 then
    {| sup_SiaPath := sup_SiaPath lup; DryRun := DryRun lup;
       sup_Force := sup_Force lup;
       BaseChunkRedundancy := SkyfileDefaultBaseChunkRedundancy;
       FileSpecificSkykey := FileSpecificSkykey lup |}
  else lup.

Definition fileUploadParams (siaPath : SiaPath) (dataPieces parityPieces : Z)
  (force : bool) (ct : CipherType) : result FileUploadParams :=
  match NewRSSubCode dataPieces parityPieces SegmentSize with
  | Err err => Err (AddContext err "unable to create erasure coder")
  | Ok ec =>
      Ok {| fup_SiaPath := siaPath; ErasureCode := ec; fup_Force := force;
            DisablePartialChunk := true; Repair := false;
            fup_CipherType := ct |}
  end.

Definition baseSectorUploadParamsFromSUP (sup : SkyfileUploadParameters)
  : result FileUploadParams :=
  let sup := skyfileEstablishDefaults sup in
  fileUploadParams (sup_SiaPath sup) 1
    (Z.of_N (BaseChunkRedundancy sup) - 1) (sup_Force sup) TypePlain.

Definition isFileNodeBlocked (fileNode : FileNode) : bool :=
  existsb (fun skylinkstr =>
             match Skylink_LoadString skylinkstr with
             | Err _ => false
             | Ok skylink => IsBlocked skylink
             end)
          (fileNode_Skylinks fileNode).

Definition managedUploadBaseSector (sup : SkyfileUploadParameters)
  (baseSector : list Byte.byte) (skylink : Skylink)
  : list event * option error :=
  match baseSectorUploadParamsFromSUP sup with
  | Err err =>
      ([], Some (AddContext err "failed to create siafile upload parameters"))
  | Ok uploadParams =>
      match callUploadStreamFromReader_ (fup_SiaPath uploadParams)
              (ErasureCode uploadParams) (fup_Force uploadParams)
              (fup_CipherType uploadParams) baseSector with
      | Err err =>
          ([EvUploadStream uploadParams baseSector],
           Some (AddContext err "failed to stream upload small skyfile"))
      | Ok fileNode =>
          let err := AddContext_nil (AddSkylink fileNode skylink)
                       "unable to add skylink to siafile" in
          ([EvUploadStream uploadParams baseSector;
            EvAddSkylink fileNode skylink; EvClose fileNode],
           Compose_nil err (fileNode_Close fileNode))
      end
  end.

(** The context attached to [ErrMetadataTooBig]. *)
Definition tooBigContext (metadataBytes fanoutBytes : list Byte.byte) : string :=
  Sprintf
    "skyfile does not fit in leading chunk - metadata size plus fanout size must be less than %v bytes, metadata size is %v bytes and fanout size is %v bytes"
    [showN ((SectorSize + uint64_max - SkyfileLayoutSize mod uint64_max)
            mod uint64_max);
     showN (N.of_nat (length metadataBytes));
     showN (N.of_nat (length fanoutBytes))].

(** [copy(sl.KeyData[:], key)] into the zeroed key field. *)
Definition copyKeyData (key : list Byte.byte) : list Byte.byte :=
  take KeyDataLen (key ++ replicate KeyDataLen Byte.x00).

Definition managedCreateSkylinkFromFileNode (sup : SkyfileUploadParameters)
  (skyfileMetadata : SkyfileMetadata) (fileNode : FileNode)
  (fanoutReader : option Reader) : list event * (Skylink * option error) :=
  match ValidateSkyfileMetadata skyfileMetadata with
  | Some err => ([], (Skylink_zero, Some (Compose ErrInvalidMetadata err)))
  | None =>
  if isFileNodeBlocked fileNode then
    ([EvDeleteFile (sup_SiaPath sup)],
     (Skylink_zero,
      Compose_nil (Some ErrSkylinkBlocked) (DeleteFile (sup_SiaPath sup))))
  else if (KeyDataLen <? length (MasterKey_Key fileNode))%nat then
    ([], (Skylink_zero,
          Some (ErrNew "cipher key is not supported by the skyfile format")))
  else if negb (bool_decide
                  (ErasureCode_Type fileNode = ECReedSolomonSubShards64)) then
    ([], (Skylink_zero,
          Some (ErrNew "siafile has unsupported erasure code type")))
  else
  match SkyfileMetadataBytes skyfileMetadata with
  | Err err =>
      ([], (Skylink_zero,
            Some (AddContext err "error retrieving skyfile metadata bytes")))
  | Ok metadataBytes =>
  match skyfileEncodeFanout fileNode fanoutReader with
  | Err err =>
      ([], (Skylink_zero,
            Some (AddContext err "unable to encode the fanout of the siafile")))
  | Ok fanoutBytes =>
  (* the sum is an [int], converted to [uint64] *)
  let headerSize :=
    (SkyfileLayoutSize + N.of_nat (length metadataBytes)
     + N.of_nat (length fanoutBytes)) mod uint64_max in
  if SectorSize <? headerSize then
    ([], (Skylink_zero,
          Some (AddContext ErrMetadataTooBig
                  (tooBigContext metadataBytes fanoutBytes))))
  else
  let sl :=
    {| Version := SkyfileVersion;
       Filesize := fileNode_Size fileNode;
       MetadataSize := N.of_nat (length metadataBytes);
       FanoutSize := N.of_nat (length fanoutBytes);
       FanoutDataPieces := (ErasureCode_MinPieces fileNode) mod 256;
       FanoutParityPieces :=
         (ErasureCode_NumPieces fileNode - ErasureCode_MinPieces fileNode)
         mod 256;
       sl_CipherType := MasterKey_Type fileNode;
       KeyData :=
         if negb (encryptionEnabled sup)
         then copyKeyData (MasterKey_Key fileNode)
         else replicate KeyDataLen Byte.x00 |} in
  let '(baseSector, fetchSize) :=
    BuildBaseSector (SkyfileLayout_Encode sl) fanoutBytes metadataBytes [] in
  let built := [EvBuildBaseSector sl fanoutBytes metadataBytes] in
  let encrypted :=
    if encryptionEnabled sup then
      encryptBaseSectorWithSkykey baseSector sl (FileSpecificSkykey sup)
    else Ok baseSector in
  let built :=
    if encryptionEnabled sup then built ++ [EvEncryptBaseSector]
    else built in
  match encrypted with
  | Err err =>
      (built,
       (Skylink_zero,
        Some (AddContext err "Failed to encrypt base sector for upload")))
  | Ok baseSector =>
  let baseSectorRoot := MerkleRoot baseSector in
  match NewSkylinkV1 baseSectorRoot 0 fetchSize with
  | Err err =>
      (built, (Skylink_zero, Some (AddContext err "unable to build skylink")))
  | Ok skylink =>
  if DryRun sup then (built, (skylink, None))
  else if IsBlocked skylink then
    (built ++ [EvDeleteFile (sup_SiaPath sup)],
     (Skylink_zero,
      Compose_nil (Some ErrSkylinkBlocked) (DeleteFile (sup_SiaPath sup))))
  else
  match AddSkylink fileNode skylink with
  | Some err =>
      (built ++ [EvAddSkylink fileNode skylink],
       (skylink, Some (AddContext err "unable to add skylink to the sianodes")))
  | None =>
  let '(uploaded, err) := managedUploadBaseSector sup baseSector skylink in
  match err with
  | Some err =>
      (built ++ [EvAddSkylink fileNode skylink] ++ uploaded,
       (Skylink_zero,
        Some (AddContext err "Unable to upload base sector for file node. ")))
  | None =>
      (built ++ [EvAddSkylink fileNode skylink] ++ uploaded, (skylink, None))
  end end end end end end end.

End Skyfile.

(** ** modules/renter/skyfile.go: the upload entry points *)

(** [io.EOF] and [io.ErrUnexpectedEOF] of the Go standard library. *)
Definition io_EOF : error := ErrNew "EOF".
Definition io_ErrUnexpectedEOF : error := ErrNew "unexpected EOF".

Definition ErrEncryptionNotSupported : error :=
  ErrNew "skykey encryption not supported".

(** [errors.Contains] on a possibly-nil error. *)
Definition Contains_nil (err : option error) (cmp : error) : bool :=
  match err with Some e => Contains e cmp | None => false end.

(** The [modules.SkyfileUploadReader] interface, the sia path helpers and
    the remaining renter helpers used by the upload entry points. *)
Class UploadEnv {crypto : Crypto} {renv : RenterEnv} : Type := {
  UploadReader : Type;
  (* io.ReadFull(reader, make([]byte, n)): the bytes read and the error *)
  io_ReadFull : UploadReader -> N -> UploadReader * list Byte.byte * option error;
  (* reader.SkyfileMetadata(ctx), reader.AddReadBuffer(b),
     reader.FanoutReader() *)
  reader_SkyfileMetadata : UploadReader -> UploadReader * result SkyfileMetadata;
  reader_AddReadBuffer : UploadReader -> list Byte.byte -> UploadReader;
  reader_FanoutReader : UploadReader -> Reader;
  (* siaPath.String(), siaPath.Name(), modules.NewSiaPath,
     modules.ExtendedSuffix, modules.SiaPath{} *)
  SiaPath_String : SiaPath -> string;
  SiaPath_Name : SiaPath -> string;
  NewSiaPath : string -> result SiaPath;
  ExtendedSuffix : string;
  SiaPath_zero : SiaPath;
  (* modules.RenterDefaultDataPieces, modules.RenterDefaultParityPieces *)
  RenterDefaultDataPieces : Z;
  RenterDefaultParityPieces : Z;
  (* r.deps.Disrupt *)
  Disrupt : string -> bool;
  (* r.staticFileSystem.OpenSiaFile, fileNode.Mode() *)
  OpenSiaFile : SiaPath -> result FileNode;
  FileMode : Type;
  fileNode_Mode : FileNode -> FileMode;
  (* modules.SkyfileMetadata{Filename: .., Mode: .., Length: ..} *)
  SkyfileMetadata_of : string -> FileMode -> N -> SkyfileMetadata;
}.

Section Upload.
Context {crypto : Crypto} {renv : RenterEnv} {uenv : UploadEnv}.
Variable encryptionEnabled : SkyfileUploadParameters -> bool.
Variable SkyfileLayout_Encode : SkyfileLayout -> list Byte.byte.
Variable BuildBaseSector :
  list Byte.byte -> list Byte.byte -> list Byte.byte -> list Byte.byte ->
  list Byte.byte * N.
Variable encryptBaseSectorWithSkykey :
  list Byte.byte -> SkyfileLayout -> Skykey -> result (list Byte.byte).

(** [r.generateFilekey(&sup, nil)] and [generateCipherKey(&fup, sup)] update
    their first argument in place; [managedCreateFileNodeFromReader] and
    [callUploadStreamFromReader] consume the reader. *)
Variable generateFilekey :
  SkyfileUploadParameters -> SkyfileUploadParameters * option error.
Variable generateCipherKey :
  FileUploadParams -> SkyfileUploadParameters -> FileUploadParams * option error.
Variable managedCreateFileNodeFromReader :
  FileUploadParams -> UploadReader -> UploadReader * result FileNode.
Variable callUploadStreamFromReader :
  FileUploadParams -> UploadReader -> UploadReader * result FileNode.

(** Effects of the upload entry points: those of the base-sector path, and
    the two ways a file node is made from a reader. *)
Inductive uploadEvent : Type :=
| UBase (ev : event)
| UCreateFileNode (up : FileUploadParams)
| UUploadReader (up : FileUploadParams).

Definition CreateSkylinkFromSiafile (sup : SkyfileUploadParameters)
  (siaPath : SiaPath) : list event * (Skylink * option error) :=
  if encryptionEnabled sup then
    ([], (Skylink_zero,
          Some (AddContext ErrEncryptionNotSupported
                  "unable to convert siafile")))
  else
    let sup := skyfileEstablishDefaults sup in
    match OpenSiaFile siaPath with
    | Err err =>
        ([], (Skylink_zero, Some (AddContext err "unable to open siafile")))
    | Ok fileNode =>
        let metadata :=
          SkyfileMetadata_of (SiaPath_Name siaPath) (fileNode_Mode fileNode)
            (fileNode_Size fileNode) in
        let '(events, (skylink, err)) :=
          managedCreateSkylinkFromFileNode encryptionEnabled
            SkyfileLayout_Encode BuildBaseSector encryptBaseSectorWithSkykey
            sup metadata fileNode None in
        (* the deferred fileNode.Close() *)
        (events ++ [EvClose fileNode],
         (skylink, Compose_nil err (fileNode_Close fileNode)))
    end.

Definition managedUploadSkyfileSmallFile (sup : SkyfileUploadParameters)
  (metadataBytes fileBytes : list Byte.byte)
  : list event * (Skylink * option error) :=
  let sl :=
    {| Version := SkyfileVersion;
       Filesize := N.of_nat (length fileBytes);
       MetadataSize := N.of_nat (length metadataBytes);
       FanoutSize := 0;
       FanoutDataPieces := 0;
       FanoutParityPieces := 0;
       sl_CipherType := TypePlain;
       KeyData := replicate KeyDataLen Byte.x00 |} in
  let '(baseSector, fetchSize) :=
    BuildBaseSector (SkyfileLayout_Encode sl) [] metadataBytes fileBytes in
  let built := [EvBuildBaseSector sl [] metadataBytes] in
  let encrypted :=
    if encryptionEnabled sup then
      encryptBaseSectorWithSkykey baseSector sl (FileSpecificSkykey sup)
    else Ok baseSector in
  let built :=
    if encryptionEnabled sup then built ++ [EvEncryptBaseSector]
    else built in
  match encrypted with
  | Err err =>
      (built,
       (Skylink_zero,
        Some (AddContext err "Failed to encrypt base sector for upload")))
  | Ok baseSector =>
  let baseSectorRoot := MerkleRoot baseSector in
  match NewSkylinkV1 baseSectorRoot 0 fetchSize with
  | Err err =>
      (built,
       (Skylink_zero, Some (AddContext err "failed to build the skylink")))
  | Ok skylink =>
  if DryRun sup then (built, (skylink, None))
  else
    let '(uploaded, err) := managedUploadBaseSector sup baseSector skylink in
    match err with
    | Some err =>
        (built ++ uploaded,
         (Skylink_zero, Some (AddContext err "failed to upload base sector")))
    | None => (built ++ uploaded, (skylink, None))
    end
  end end.

Definition managedUploadSkyfileLargeFile (sup : SkyfileUploadParameters)
  (fileReader : UploadReader)
  : list uploadEvent * (Skylink * option error) :=
  match NewSiaPath (SiaPath_String (sup_SiaPath sup) +:+ ExtendedSuffix) with
  | Err err =>
      ([], (Skylink_zero,
            Some (AddContext err
                    "unable to create SiaPath for large skyfile extended data")))
  | Ok siaPath =>
  match fileUploadParams siaPath RenterDefaultDataPieces
          RenterDefaultParityPieces (sup_Force sup) TypePlain with
  | Err err =>
      ([], (Skylink_zero,
            Some (AddContext err
                    "unable to create FileUploadParams for large file")))
  | Ok fup =>
  match generateCipherKey fup sup with
  | (_, Some err) =>
      ([], (Skylink_zero,
            Some (AddContext err
                    "unable to create Cipher key for FileUploadParams")))
  | (fup, None) =>
  let made :=
    if DryRun sup then UCreateFileNode fup else UUploadReader fup in
  let '(fileReader, created) :=
    if DryRun sup then managedCreateFileNodeFromReader fup fileReader
    else callUploadStreamFromReader fup fileReader in
  match created with
  | Err err =>
      ([made],
       (Skylink_zero, Some (AddContext err "unable to upload large skyfile")))
  | Ok fileNode =>
  (* from here on the deferred fileNode.Close() runs at every return *)
  match reader_SkyfileMetadata fileReader with
  | (_, Err err) =>
      ([made; UBase (EvClose fileNode)],
       (Skylink_zero, Some (AddContext err "unable to get skyfile metadata")))
  | (fileReader, Ok metadata) =>
      let '(events, (skylink, err)) :=
        managedCreateSkylinkFromFileNode encryptionEnabled
          SkyfileLayout_Encode BuildBaseSector encryptBaseSectorWithSkykey
          sup metadata fileNode (Some (reader_FanoutReader fileReader)) in
      let events := [made] ++ map UBase events ++ [UBase (EvClose fileNode)] in
      match err with
      | Some err =>
          (events,
           (Skylink_zero,
            Some (AddContext err "unable to create skylink from filenode")))
      | None => (events, (skylink, None))
      end
  end end end end end.

Definition managedUploadSkyfile (sup : SkyfileUploadParameters)
  (reader : UploadReader) : list uploadEvent * (Skylink * option error) :=
  let '(reader, buf, err) := io_ReadFull reader SectorSize in
  let numBytes := N.of_nat (length buf) in
  let large (reader : UploadReader) :=
    managedUploadSkyfileLargeFile sup (reader_AddReadBuffer reader buf) in
  if Contains_nil err io_EOF || Contains_nil err io_ErrUnexpectedEOF then
    match reader_SkyfileMetadata reader with
    | (_, Err err) =>
        ([], (Skylink_zero,
              Some (AddContext err "unable to get skyfile metadata")))
    | (reader, Ok metadata) =>
        match ValidateSkyfileMetadata metadata with
        | Some err =>
            ([], (Skylink_zero, Some (Compose ErrInvalidMetadata err)))
        | None =>
            match SkyfileMetadataBytes metadata with
            | Err err =>
                ([], (Skylink_zero,
                      Some (AddContext err
                              "unable to get skyfile metadata bytes")))
            | Ok metadataBytes =>
                let headerSize :=
                  (SkyfileLayoutSize + N.of_nat (length metadataBytes))
                  mod uint64_max in
                if (numBytes + headerSize) mod uint64_max <=? SectorSize then
                  let '(events, res) :=
                    managedUploadSkyfileSmallFile sup metadataBytes buf in
                  (map UBase events, res)
                else large reader
            end
        end
    end
  else large reader.


End Upload.

(** ** types/block.go *)

Module types.

(** Types of the [types] package that a block only carries, their Sia
    encodings, and the hash functions of the Merkle tree. *)
Class BlockEnv : Type := {
  BlockID : Type;
  BlockNonce : Type;
  Timestamp : Type;
  SiacoinOutput : Type;
  Transaction : Type;
  TransactionID : Type;
  Target : Type;
  Target_zero : Target;
  (* payout.MarshalSia(e), txn.MarshalSia(e): the bytes left in the buffer *)
  SiacoinOutput_MarshalSia : SiacoinOutput -> list Byte.byte;
  Transaction_MarshalSia : Transaction -> list Byte.byte;
  (* txn.ID() *)
  Transaction_ID : Transaction -> TransactionID;
  (* leaf and node hashes of the tree built by crypto.NewTree() *)
  leafSum : list Byte.byte -> list Byte.byte;
  nodeSum : list Byte.byte -> list Byte.byte -> list Byte.byte;
  (* hex.EncodeToString *)
  hex_EncodeToString : list Byte.byte -> string;
}.

Section Block.
Context {benv : BlockEnv}.

Record Block : Type := mkBlock {
  ParentID : BlockID;
  Nonce : BlockNonce;
  Timestamp_ : Timestamp;
  MinerPayouts : list SiacoinOutput;
  Transactions : list Transaction;
}.

Record BlockTemplate : Type := mkBlockTemplate {
  tpl_ParentID : BlockID;
  tpl_Nonce : BlockNonce;
  tpl_Timestamp : Timestamp;
  tpl_MinerPayouts : list SiacoinOutput;
  tpl_Transactions : list TransactionID;
  tpl_Target : Target;
  MerkleBranches : list string;
  Height : N;
}.

(** The tree that [MerkleBranches] looks into: the chain of sub-trees that
    starts at [head] and follows [next], as the local [SubTree] and [Tree]
    declarations of [MerkleBranches] lay it out. *)
Record SubTree : Type := mkSubTree {
  height : nat;
  sum : list Byte.byte;
}.

Definition Tree : Type := list SubTree.

Definition NewTree : Tree := [].

(** [joinAllSubTrees]: while the head and its successor have the same
    height, replace both by their join. *)
Fixpoint joinAllSubTrees (head : SubTree) (next : Tree) : Tree :=
  match next with
  | [] => [head]
  | st :: rest =>
      if (height head =? height st)%nat then
        joinAllSubTrees
          {| height := S (height st); sum := nodeSum (sum st) (sum head) |}
          rest
      else head :: st :: rest
  end.

(** [tree.Push(data)] *)
Definition Push (t : Tree) (data : list Byte.byte) : Tree :=
  joinAllSubTrees {| height := 0; sum := leafSum data |} t.

(** The leaves of a block's tree: one per miner payout, then one per
    transaction. *)
Definition blockLeaves (b : Block) : list (list Byte.byte) :=
  map SiacoinOutput_MarshalSia (MinerPayouts b)
  ++ map Transaction_MarshalSia (Transactions b).

Definition Block_BlockTemplate (b : Block) : BlockTemplate :=
  let txs := map Transaction_ID (Transactions b) in
  {| tpl_ParentID := ParentID b;
     tpl_Nonce := Nonce b;
     tpl_Timestamp := Timestamp_ b;
     tpl_MinerPayouts := MinerPayouts b;
     tpl_Transactions := txs;
     (* Target, MerkleBranches and Height keep their zero values;
        the line "MerkleBranches: b.MerkleBranches()," is commented out *)
     tpl_Target := Target_zero;
     MerkleBranches := [];
     Height := 0 |}.

Definition Block_MerkleBranches (b : Block) : list string :=
  let mbranch := foldl Push NewTree (blockLeaves b) in
  map (fun st => hex_EncodeToString (sum st)) mbranch.

End Block.

End types.

(** ** types/block.go: coinbase and supply

    [CalculateCoinbase] and [CalculateNumSiacoins].  [Currency] and its
    operations and the consensus constants are declared in other files of
    the [types] package; they are the fields of [SupplyEnv].  Block heights
    and the two coinbase constants are [uint64] values, with the
    wrap-around of their subtractions and additions written out. *)
Module supply.

Class SupplyEnv : Type := {
  Currency : Type;
  NewCurrency64 : N -> Currency;
  Add : Currency -> Currency -> Currency;
  Mul : Currency -> Currency -> Currency;
  Mul64 : Currency -> N -> Currency;
  Div64 : Currency -> N -> Currency;
  InitialCoinbase : N;
  MinimumCoinbase : N;
  SiacoinPrecision : Currency;
  FoundationHardforkHeight : N;
  FoundationSubsidyFrequency : N;
  InitialFoundationSubsidy : Currency;
  FoundationSubsidyPerBlock : Currency;
  (* the values of the siacoin outputs of GenesisBlock, per transaction *)
  GenesisSiacoinOutputValues : list (list Currency);
}.

Section Supply.
Context {senv : SupplyEnv}.

Definition CalculateCoinbase (height : N) : Currency :=
  let base := (InitialCoinbase + uint64_max - height) mod uint64_max in
  let base :=
    if (InitialCoinbase <? height) || (base <? MinimumCoinbase)
    then MinimumCoinbase else base in
  Mul (NewCurrency64 base) SiacoinPrecision.

Definition numGenesisSiacoins : Currency :=
  foldl (fun total outputs => foldl Add total outputs)
        (NewCurrency64 0) GenesisSiacoinOutputValues.

(** The division of two block heights panics when the divisor is zero. *)
Definition CalculateNumSiacoins (height : N) : outcome Currency :=
  let total := numGenesisSiacoins in
  let deflationBlocks :=
    (InitialCoinbase + uint64_max - MinimumCoinbase) mod uint64_max in
  let avgDeflationSiacoins :=
    Div64 (Add (CalculateCoinbase 0) (CalculateCoinbase height)) 2 in
  let total :=
    if height <=? deflationBlocks then
      Add total (Mul64 avgDeflationSiacoins ((height + 1) mod uint64_max))
    else
      let total :=
        Add total (Mul avgDeflationSiacoins
                       (NewCurrency64 ((deflationBlocks + 1) mod uint64_max))) in
      Add total (Mul64 (CalculateCoinbase height) (height - deflationBlocks)) in
  if FoundationHardforkHeight <=? height then
    let total := Add total InitialFoundationSubsidy in
    let perSubsidy :=
      Mul64 FoundationSubsidyPerBlock FoundationSubsidyFrequency in
    if FoundationSubsidyFrequency =? 0 then
      Panic "runtime error: integer divide by zero"
    else
      let subsidies :=
        (height - FoundationHardforkHeight) / FoundationSubsidyFrequency in
      Ret (Add total (Mul64 perSubsidy subsidies))
  else Ret total.

(** The coinbases of the blocks at heights [0] to [n], added up, and the
    Foundation subsidies paid up to a height, as numbers. *)
Fixpoint coinbaseSum (value : Currency -> N) (n : nat) : N :=
  match n with
  | O => value (CalculateCoinbase 0)
  | S k => coinbaseSum value k + value (CalculateCoinbase (N.of_nat (S k)))
  end.

Definition foundationSum (value : Currency -> N) (height : N) : N :=
  if FoundationHardforkHeight <=? height then
    value InitialFoundationSubsidy
    + value FoundationSubsidyPerBlock * FoundationSubsidyFrequency
      * ((height - FoundationHardforkHeight) / FoundationSubsidyFrequency)
  else 0.

End Supply.

End supply.

(** A small concrete instance of the external collaborators, used to run
    the definitions on explicit inputs: four-byte sectors, numeric hashes. *)
Definition sampleMerkleRoot (d : list Byte.byte) : N :=
  foldr (fun b acc => Byte.to_N b + 256 * acc) 1 d.

Definition sampleListRoot (l : list N) : N :=
  foldr (fun h acc => N.succ (h + 3 * acc)) 0 l.

(** Siblings needed to rebuild the root: here every leaf outside the ranges. *)
Definition sampleDiffProof (ranges : list ProofRange) (numLeaves : N)
  (updatedSectors : list (list Byte.byte)) (sectorRoots : list N) : list N :=
  omap (fun '(k, h) =>
          if existsb (fun r => (Start r <=? N.of_nat k) && (N.of_nat k <? End r))
                     ranges
          then None else Some h)
       (imap (fun k h => (k, h)) sectorRoots).

Definition sampleCrypto : Crypto :=
  {| Hash := N; SectorSize := 4;
     MerkleRoot := sampleMerkleRoot; cachedMerkleRoot := sampleListRoot;
     MerkleDiffProof := sampleDiffProof;
     Marshal := fun hs => map (fun h => default Byte.x00 (Byte.of_N (h mod 256))) hs;
     Hash_zero := 0 |}.

Definition zeroSector : list Byte.byte := replicate 4 Byte.x00.
Definition oneSector : list Byte.byte := replicate 4 Byte.x01.

(** Program data holding the little-endian words 2 and 0, a cache over
    three roots, and a SwapSector instruction reading both words. *)
Definition sampleData : ProgramData :=
  mkProgramData ([Byte.x02] ++ replicate 7 Byte.x00 ++ replicate 8 Byte.x00).

Definition sampleSwap : instructionSwapSector :=
  {| staticData := sampleData; staticMerkleProof := true;
     sector1Offset := 0; sector2Offset := 8 |}.

Definition sampleRoots : list N := [10; 20; 30].

Definition sampleCache : sectors (crypto := sampleCrypto) :=
  @newSectors sampleCrypto sampleRoots.

Definition samplePrev : output (crypto := sampleCrypto) :=
  @mkOutput sampleCrypto 12 0 [] [] None.

(** A concrete host for running the payment handlers: payment kinds 1 and
    2 as on the wire, currencies and identifiers as numbers, and a host that
    serves the single contract 7. *)
Record sampleHostState : Type := mkSampleHost {
  sh_height : N;
  sh_revision : N;
  sh_valid : list (N * N);
  sh_missed : list (N * N);
  sh_withdrawn : N;
}.

Definition samplePaymentTypes : PaymentTypes :=
  {| Specifier := N;
     PayByEphemeralAccount := 1;
     PayByContract := 2;
     PayBy_distinct := ltac:(discriminate);
     showSpecifier := showN;
     AccountID := string;
     AccountID_empty := EmptyString;
     Currency := N;
     ZeroCurrency := 0;
     Currency_Sub := N.sub;
     types_UnlockHash := N;
     FileContractID := N;
     SecretKey := unit;
     RevisionRest := N;
     ObligationRest := unit;
     Host := sampleHostState |}.

Section SampleHost.
#[local] Existing Instance samplePaymentTypes.

Definition sampleOutputs (l : list (N * N))
  : list (SiacoinOutput (pt := samplePaymentTypes)) :=
  map (fun p => @mkSiacoinOutput samplePaymentTypes p.1 p.2) l.

Definition sampleObligation_revision (h : sampleHostState)
  : FileContractRevision (pt := samplePaymentTypes) :=
  @mkRevision samplePaymentTypes 7 (sh_revision h)
    (sampleOutputs (sh_valid h)) (sampleOutputs (sh_missed h)) 100.

Definition sampleObligation (h : sampleHostState)
  : storageObligation (pt := samplePaymentTypes) :=
  @mkObligation samplePaymentTypes
    [ @mkTransaction samplePaymentTypes [ sampleObligation_revision h ] [] ]
    tt.

Definition sampleRecentRevision
  (so : storageObligation (pt := samplePaymentTypes))
  : result (FileContractRevision (pt := samplePaymentTypes)) :=
  match last (RevisionTransactionSet so) with
  | None => Err (ErrNew "no revision in the transaction set")
  | Some txn =>
      match FileContractRevisions txn with
      | rev :: _ => Ok rev
      | [] => Err (ErrNew "no revision in the transaction")
      end
  end.

Definition sampleValues
  (l : list (SiacoinOutput (pt := samplePaymentTypes))) : list (N * N) :=
  map (fun o => (Value o : N, UnlockHash o : N)) l.

(** Modelled from the spec: the failure list of section 4.F, [verify(current,
    new, blockHeight, expectedExchange)], over two valid outputs (renter,
    host) and three missed outputs (renter, host, void). *)
Definition sampleVerify
  (current payment : FileContractRevision (pt := samplePaymentTypes))
  (height : N) (expected : N) : option error :=
  if NewRevisionNumber payment <=? NewRevisionNumber current then
    Some (ErrNew "bad revision number")
  else if (revisionRest current : N) <? height then
    Some (ErrNew "contract expired")
  else
    match sampleValues (NewValidProofOutputs current),
          sampleValues (NewValidProofOutputs payment),
          sampleValues (NewMissedProofOutputs current),
          sampleValues (NewMissedProofOutputs payment) with
    | [(cr, ur); (ch, uh)], [(pr, ur'); (ph, uh')],
      [(cmr, umr); (cmh, umh); (cmv, umv)],
      [(pmr, umr'); (pmh, umh'); (pmv, umv')] =>
        if negb (bool_decide ([ur; uh; umr; umh; umv]
                              = [ur'; uh'; umr'; umh'; umv'])) then
          Some (ErrNew "recipient changed")
        else if (cr <? pr) || (ph <? ch) || (cmh <? pmh) || (pmv <? cmv) then
          Some (ErrNew "underflow")
        else if negb (cr - pr =? ph - ch) || (cr - pr <? expected) then
          Some (ErrNew "host not credited equally")
        else if negb (cmh - pmh =? pmv - cmv) then
          Some (ErrNew "collateral not moved to the void")
        else None
    | _, _, _, _ => Some (ErrNew "output-count mismatch")
    end.

Definition sampleHostEnv : HostEnv (pt := samplePaymentTypes) :=
  {| callWithdraw := fun h msg _ _ =>
       (mkSampleHost (sh_height h) (sh_revision h) (sh_valid h) (sh_missed h)
                     (sh_withdrawn h + (Amount msg : N)), None);
     managedGetStorageObligation := fun h fcid =>
       if (fcid : N) =? 7 then Ok (sampleObligation h)
       else Err (ErrNew "no storage obligation");
     BlockHeight := sh_height;
     blockHeight := sh_height;
     secretKey := fun _ => tt;
     recentRevision := sampleRecentRevision;
     verifyPaymentRevision := sampleVerify;
     createRevisionSignature := fun rev renterSig _ _ =>
       Ok (@mkTransaction samplePaymentTypes [rev]
             [renterSig;
              @mkTransactionSignature samplePaymentTypes (ParentID rev) [0] 1
                [Byte.x68; Byte.x6f; Byte.x73; Byte.x74]]);
     managedModifyStorageObligation := fun h so =>
       match sampleRecentRevision so with
       | Ok rev =>
           (mkSampleHost (sh_height h) (NewRevisionNumber rev)
              (sampleValues (NewValidProofOutputs rev))
              (sampleValues (NewMissedProofOutputs rev)) (sh_withdrawn h),
            None)
       | Err e => (h, Some e)
       end;
     HostSignature := fun txn =>
       default (@mkTransactionSignature samplePaymentTypes 0 [] 0 [])
               (TransactionSignatures txn !! 1%nat);
     ValidHostPayout := fun rev =>
       match NewValidProofOutputs rev !! 1%nat with
       | Some o => Value o
       | None => 0
       end;
     MissedHostOutput := fun rev =>
       default (@mkSiacoinOutput samplePaymentTypes 0 0)
               (NewMissedProofOutputs rev !! 1%nat) |}.

(** Scenario "contract payment of 500, collateral 200" of the
    specification: revision 7 with valid outputs (renter 2000, host 1000) and
    missed outputs (renter 500, host 500, void 100). *)
Definition sampleHost : sampleHostState :=
  mkSampleHost 50 7 [(2000, 11); (1000, 12)] [(500, 11); (500, 12); (100, 13)] 0.

Definition samplePayByContract
  : PayByContractRequest (pt := samplePaymentTypes) :=
  @mkPayByContract samplePaymentTypes 7 8 [1500; 1500] [500; 300; 300]
    [Byte.x72].

Definition sampleStream (kind : N) (body : list (message (pt := samplePaymentTypes)))
  : stream (pt := samplePaymentTypes) :=
  @mkStream samplePaymentTypes
    (MsgPaymentRequest (@mkPaymentRequest samplePaymentTypes kind) :: body)
    [] true.

(** A request whose valid-proof value vector is longer than the two
    outputs of the recent revision. *)
Definition longPayByContract
  : PayByContractRequest (pt := samplePaymentTypes) :=
  @mkPayByContract samplePaymentTypes 7 8 [1500; 1500; 0] [500; 300; 300]
    [Byte.x72].

End SampleHost.

(** A concrete renter over [sampleCrypto] (four-byte sectors): the layout
    takes one byte, the metadata marshals to itself, and a file node is its
    fanout together with the skylink strings recorded for it. *)
Definition sampleRenterEnv : RenterEnv (crypto := sampleCrypto) :=
  {| SiaPath := string;
     SkyfileMetadata := list Byte.byte;
     FileNode := list Byte.byte * list string;
     Skylink := N;
     Skylink_zero := 0;
     Skykey := unit;
     CipherType := N;
     TypePlain := 0;
     ErasureCoder := Z * Z;
     ErasureCodeType := N;
     ECReedSolomonSubShards64 := 1;
     Reader := unit;
     SkyfileLayoutSize := 1;
     SkyfileVersion := 1;
     KeyDataLen := 2;
     SkyfileDefaultBaseChunkRedundancy := 10;
     SegmentSize := 64;
     ValidateSkyfileMetadata := fun md =>
       match md with
       | [] => Some (ErrNew "empty filename")
       | _ => None
       end;
     SkyfileMetadataBytes := fun md => Ok md;
     fileNode_Skylinks := snd;
     Skylink_LoadString := fun s => Ok (N.of_nat (String.length s));
     IsBlocked := fun l => l =? 0;
     DeleteFile := fun _ => None;
     MasterKey_Key := fun _ => [Byte.x6b];
     MasterKey_Type := fun _ => 0;
     ErasureCode_Type := fun _ => 1;
     ErasureCode_MinPieces := fun _ => 10%Z;
     ErasureCode_NumPieces := fun _ => 30%Z;
     fileNode_Size := fun fn => 4 * N.of_nat (length fn.1);
     skyfileEncodeFanout := fun fn _ => Ok fn.1;
     NewRSSubCode := fun d p _ => Ok (d, p);
     callUploadStreamFromReader_ := fun _ _ _ _ b => Ok (b, []);
     AddSkylink := fun _ _ => None;
     fileNode_Close := fun _ => None;
     NewSkylinkV1 := fun (root : @Hash sampleCrypto) _ _ => Ok (root : N) |}.

Section SampleRenter.
#[local] Existing Instance sampleCrypto.
#[local] Existing Instance sampleRenterEnv.

Definition sampleSUP : SkyfileUploadParameters :=
  {| sup_SiaPath := "base"%string; DryRun := false; sup_Force := false;
     BaseChunkRedundancy := 0; FileSpecificSkykey := tt |}.

Definition sampleBuildBaseSector
  (layout fanout metadata fileBytes : list Byte.byte) : list Byte.byte * N :=
  (take 4 (layout ++ fanout ++ metadata ++ fileBytes ++ replicate 4 Byte.x00),
   N.of_nat (length (layout ++ fanout ++ metadata ++ fileBytes))).

(** Runs [managedCreateSkylinkFromFileNode] without encryption. *)
Definition sampleCreateSkylink (md : list Byte.byte)
  (fileNode : list Byte.byte * list string)
  : list event * (N * option error) :=
  managedCreateSkylinkFromFileNode
    (fun _ => false) (fun sl => [Byte.x01]) sampleBuildBaseSector
    (fun b _ _ => Ok b) sampleSUP md fileNode None.

(** The upload parameters and the base sector of a one-byte fanout with
    one byte of metadata. *)
Definition sampleUploadParams : FileUploadParams :=
  {| fup_SiaPath := "base"%string; ErasureCode := (1%Z, 9%Z);
     fup_Force := false; DisablePartialChunk := true; Repair := false;
     fup_CipherType := 0 |}.

Definition sampleBaseSector : list Byte.byte :=
  [Byte.x01; Byte.x02; Byte.x61; Byte.x00].

End SampleRenter.

(** A concrete block environment: payouts and transactions are bytes, a
    leaf hash prefixes 0x00 and a node hash prefixes 0x01. *)
Definition sampleHex (bs : list Byte.byte) : string :=
  string_of_list_ascii (map (fun b => ascii_of_N (Byte.to_N b)) bs).

Definition sampleBlockEnv : types.BlockEnv :=
  {| types.BlockID := N;
     types.BlockNonce := N;
     types.Timestamp := N;
     types.SiacoinOutput := Byte.byte;
     types.Transaction := Byte.byte;
     types.TransactionID := N;
     types.Target := N;
     types.Target_zero := 0;
     types.SiacoinOutput_MarshalSia := fun o => [o];
     types.Transaction_MarshalSia := fun t => [t];
     types.Transaction_ID := fun t => Byte.to_N t;
     types.leafSum := fun d => Byte.x00 :: d;
     types.nodeSum := fun l r => Byte.x01 :: l ++ r;
     types.hex_EncodeToString := sampleHex |}.

(** A block with one miner payout and no transaction. *)
Definition sampleBlock : types.Block (benv := sampleBlockEnv) :=
  @types.mkBlock sampleBlockEnv 1 2 3 [Byte.x70] [].

(** Currency as natural numbers, a coinbase that falls from 10 to 4, a
    precision of 2, and a Foundation subsidy of 3 per block, paid every
    second block from height 12 on after a first payment of 7. *)
Definition sampleSupplyEnv : supply.SupplyEnv :=
  {| supply.Currency := N;
     supply.NewCurrency64 := fun x => x;
     supply.Add := N.add;
     supply.Mul := N.mul;
     supply.Mul64 := N.mul;
     supply.Div64 := N.div;
     supply.InitialCoinbase := 10;
     supply.MinimumCoinbase := 4;
     supply.SiacoinPrecision := 2;
     supply.FoundationHardforkHeight := 12;
     supply.FoundationSubsidyFrequency := 2;
     supply.InitialFoundationSubsidy := 7;
     supply.FoundationSubsidyPerBlock := 3;
     supply.GenesisSiacoinOutputValues := [[5; 1]; [2]] |}.

(** Scenario "EA payment happy path" of the specification: a withdrawal of
    1000 from one account, and the same request on a stream that no longer
    accepts writes. *)
Definition samplePayByEA
  : PayByEphemeralAccountRequest (pt := samplePaymentTypes) :=
  @mkPayByEA samplePaymentTypes
    (@mkWithdrawalMessage samplePaymentTypes "account"%string 10000 1000
       [Byte.x01])
    [Byte.x73] 0%Z.

Definition closedStream (msgs : list (message (pt := samplePaymentTypes)))
  : stream (pt := samplePaymentTypes) :=
  @mkStream samplePaymentTypes msgs [] false.

(** A concrete reader for the upload entry points: the bytes still to be
    read; every file has the one-byte metadata "a". *)
Definition sampleReadFull (r : list Byte.byte) (n : N)
  : list Byte.byte * list Byte.byte * option error :=
  (drop (N.to_nat n) r, take (N.to_nat n) r,
   if (length r =? 0)%nat then Some io_EOF
   else if (N.of_nat (length r) <? n) then Some io_ErrUnexpectedEOF
   else None).

Definition sampleUploadEnv
  : UploadEnv (crypto := sampleCrypto) (renv := sampleRenterEnv) :=
  {| UploadReader := list Byte.byte;
     io_ReadFull := sampleReadFull;
     reader_SkyfileMetadata := fun r =>
       (r, @Ok (@SkyfileMetadata sampleCrypto sampleRenterEnv) [Byte.x61]);
     reader_AddReadBuffer := fun r b => b ++ r;
     reader_FanoutReader := fun _ => tt;
     SiaPath_String := fun p => p;
     SiaPath_Name := fun p => p;
     NewSiaPath := fun s => @Ok (@SiaPath sampleCrypto sampleRenterEnv) s;
     ExtendedSuffix := "-extended";
     SiaPath_zero := EmptyString;
     RenterDefaultDataPieces := 10%Z;
     RenterDefaultParityPieces := 20%Z;
     Disrupt := fun _ => false;
     OpenSiaFile := fun p =>
       @Ok (@FileNode sampleCrypto sampleRenterEnv)
         ([Byte.x02], [p : string]);
     FileMode := N;
     fileNode_Mode := fun _ => 420;
     SkyfileMetadata_of := fun _ _ _ =>
       ([Byte.x61] : @SkyfileMetadata sampleCrypto sampleRenterEnv) |}.

Section SampleUpload.
#[local] Existing Instance sampleCrypto.
#[local] Existing Instance sampleRenterEnv.
#[local] Existing Instance sampleUploadEnv.

(** A file node made from a reader records the reader's bytes as fanout. *)
Definition sampleFileNodeFromReader (up : FileUploadParams)
  (r : list Byte.byte) : list Byte.byte * result FileNode :=
  ([], Ok (take 1 r, [])).


Definition sampleManagedUploadSkyfile (sup : SkyfileUploadParameters)
  (r : list Byte.byte) : list uploadEvent * (N * option error) :=
  managedUploadSkyfile (fun _ => false) (fun sl => [Byte.x01])
    sampleBuildBaseSector (fun b _ _ => Ok b) (fun fup _ => (fup, None))
    sampleFileNodeFromReader sampleFileNodeFromReader sup r.

Definition sampleLargeFile (sup : SkyfileUploadParameters)
  (r : list Byte.byte) : list uploadEvent * (N * option error) :=
  managedUploadSkyfileLargeFile (fun _ => false) (fun sl => [Byte.x01])
    sampleBuildBaseSector (fun b _ _ => Ok b) (fun fup _ => (fup, None))
    sampleFileNodeFromReader sampleFileNodeFromReader sup r.

Definition sampleSmallFile (sup : SkyfileUploadParameters)
  (metadataBytes fileBytes : list Byte.byte)
  : list event * (N * option error) :=
  managedUploadSkyfileSmallFile (fun _ => false) (fun sl => [Byte.x01])
    sampleBuildBaseSector (fun b _ _ => Ok b) sup metadataBytes fileBytes.

Definition sampleCreateSkylinkFromSiafile (sup : SkyfileUploadParameters)
  (siaPath : string) : list event * (N * option error) :=
  CreateSkylinkFromSiafile (fun _ => false) (fun sl => [Byte.x01])
    sampleBuildBaseSector (fun b _ _ => Ok b) sup siaPath.

Definition sampleDrySUP : SkyfileUploadParameters :=
  {| sup_SiaPath := "base"%string; DryRun := true; sup_Force := false;
     BaseChunkRedundancy := 2; FileSpecificSkykey := tt |}.

End SampleUpload.

(** * Verification *)

Section SectorsFacts.
Context {crypto : Crypto}.

Lemma appendSector_ok (s : sectors) (d : list Byte.byte) :
  N.of_nat (length d) = SectorSize ->
  appendSector s d =
    ({| sectorsRemoved := sectorsRemoved s ∖ {[MerkleRoot d]};
        sectorsGained := <[MerkleRoot d := d]> (sectorsGained s);
        merkleRoots := merkleRoots s ++ [MerkleRoot d] |},
     Ok (cachedMerkleRoot (merkleRoots s ++ [MerkleRoot d]))).
Proof.
  intros Hlen. unfold appendSector.
  apply N.eqb_eq in Hlen. rewrite Hlen. cbn [negb].
  destruct (decide (MerkleRoot d ∈ sectorsRemoved s)) as [Hin|Hnin]; [done|].
  do 2 f_equal. symmetry. apply difference_disjoint_L.
  by apply disjoint_singleton_r.
Qed.

Lemma appendSector_err (s : sectors) (d : list Byte.byte) :
  N.of_nat (length d) <> SectorSize ->
  appendSector s d =
    (s, Err (Errorf "trying to append data of length %v"
                    [showN (N.of_nat (length d))])).
Proof.
  intros Hlen. unfold appendSector.
  apply N.eqb_neq in Hlen. by rewrite Hlen.
Qed.

(** C4. [appendSector] fails exactly when the data is not [SectorSize]
    bytes long, and then leaves the cache as it was; otherwise it appends
    [MerkleRoot bytes] to [merkleRoots], stores the bytes under that root in
    [sectorsGained], takes the root out of [sectorsRemoved], and returns the
    Merkle root of the updated root list. *)
Theorem appendSector_spec (s : sectors) (bytes : list Byte.byte) :
  (N.of_nat (length bytes) <> SectorSize /\
   exists e, appendSector s bytes = (s, Err e))
  \/
  (N.of_nat (length bytes) = SectorSize /\
   exists s',
     appendSector s bytes = (s', Ok (cachedMerkleRoot (merkleRoots s'))) /\
     merkleRoots s' = merkleRoots s ++ [MerkleRoot bytes] /\
     sectorsGained s' = <[MerkleRoot bytes := bytes]> (sectorsGained s) /\
     sectorsRemoved s' = sectorsRemoved s ∖ {[MerkleRoot bytes]}).
Proof.
  destruct (decide (N.of_nat (length bytes) = SectorSize)) as [Heq|Hne].
  - right. split; [done|]. rewrite (appendSector_ok s bytes Heq).
    by eexists (mkSectors _ _ _).
  - left. split; [done|]. rewrite (appendSector_err s bytes Hne). by eexists.
Qed.

Lemma cacheDisjoint_alt (s : sectors) :
  cacheDisjoint s <-> dom (sectorsGained s) ## sectorsRemoved s.
Proof.
  unfold cacheDisjoint. split.
  - intros Hd root Hg Hr. apply (Hd root). split; [|done].
    by apply elem_of_dom.
  - intros Hd root [Hg Hr]. apply (Hd root); [|done]. by apply elem_of_dom.
Qed.

Lemma newSectors_disjoint (roots : list Hash) : cacheDisjoint (newSectors roots).
Proof. intros root [Hg _]. cbn in Hg. rewrite lookup_empty in Hg. by destruct Hg. Qed.

Lemma appendSector_disjoint (s : sectors) (d : list Byte.byte) :
  cacheDisjoint s -> cacheDisjoint (appendSector s d).1.
Proof.
  intros Hs.
  destruct (decide (N.of_nat (length d) = SectorSize)) as [Heq|Hne].
  - rewrite (appendSector_ok s d Heq). cbn [fst].
    apply cacheDisjoint_alt in Hs. apply cacheDisjoint_alt. cbn.
    rewrite dom_insert_L.
    intros root Hg Hr. apply elem_of_difference in Hr as [Hr Hne].
    apply elem_of_union in Hg as [Hg|Hg]; [done|].
    by apply (Hs root).
  - by rewrite (appendSector_err s d Hne).
Qed.

Lemma dropRoot_disjoint (c : gmap Hash (list Byte.byte) * gset Hash) (r : Hash) :
  dom c.1 ## c.2 -> dom (dropRoot c r).1 ## (dropRoot c r).2.
Proof.
  intros Hc. unfold dropRoot.
  destruct (c.1 !! r) as [d|] eqn:Hlk; cbn [fst snd].
  - rewrite dom_delete_L. intros x Hx Hr.
    apply elem_of_difference in Hx as [Hx _]. by apply (Hc x).
  - intros x Hx Hr. apply elem_of_union in Hr as [Hr|Hr].
    + apply elem_of_singleton in Hr. subst x.
      apply elem_of_dom in Hx. rewrite Hlk in Hx. by destruct Hx.
    + by apply (Hc x).
Qed.

Lemma foldl_dropRoot_disjoint (l : list Hash)
  (c : gmap Hash (list Byte.byte) * gset Hash) :
  dom c.1 ## c.2 ->
  dom (foldl dropRoot c l).1 ## (foldl dropRoot c l).2.
Proof.
  revert c. induction l as [|r l IH]; intros c Hc; [done|].
  cbn [foldl]. apply IH. by apply dropRoot_disjoint.
Qed.

Lemma dropSectors_disjoint (s : sectors) (n : N) :
  cacheDisjoint s -> cacheDisjoint (dropSectors s n).1.
Proof.
  intros Hs. unfold dropSectors.
  destruct (N.of_nat (length (merkleRoots s)) <? n); [done|].
  cbn [fst]. apply cacheDisjoint_alt. cbn.
  apply foldl_dropRoot_disjoint. by apply cacheDisjoint_alt.
Qed.

Lemma applyOp_disjoint (s : sectors) (op : cacheOp) :
  cacheDisjoint s -> cacheDisjoint (applyOp s op).
Proof.
  destruct op; cbn [applyOp]; auto using appendSector_disjoint, dropSectors_disjoint.
Qed.

(** C9. Every cache reached from [newSectors] by any sequence of
    [appendSector], [dropSectors], [hasSector] and [readSector] calls keeps
    [sectorsGained] and [sectorsRemoved] disjoint: no root is a key of the
    first and a member of the second. *)
Theorem reachable_gained_removed_disjoint
  (base : list Hash) (ops : list cacheOp) (root : Hash) :
  ~ (is_Some (sectorsGained (runOps (newSectors base) ops) !! root) /\
     root ∈ sectorsRemoved (runOps (newSectors base) ops)).
Proof.
  revert root. change (cacheDisjoint (runOps (newSectors base) ops)).
  unfold runOps. generalize (newSectors_disjoint base).
  generalize (newSectors base). induction ops as [|op ops IH]; intros s Hs.
  - exact Hs.
  - cbn [foldl]. apply IH. by apply applyOp_disjoint.
Qed.

(** *** Append [k] sectors, then drop [k] *)

Lemma appendAll_ok (datas : list (list Byte.byte)) (s : sectors) :
  Forall (fun d => N.of_nat (length d) = SectorSize) datas ->
  exists s' h,
    appendAll s datas = (s', Ok h) /\
    merkleRoots s' = merkleRoots s ++ map MerkleRoot datas /\
    dom (sectorsGained s') =
      dom (sectorsGained s) ∪ list_to_set (map MerkleRoot datas) /\
    sectorsRemoved s' ⊆ sectorsRemoved s.
Proof.
  revert s. induction datas as [|d datas IH]; intros s Hall.
  - exists s, (cachedMerkleRoot (merkleRoots s)). cbn.
    rewrite app_nil_r. repeat split; set_solver.
  - apply Forall_cons in Hall as [Hd Hall]. cbn [appendAll].
    rewrite (appendSector_ok s d Hd).
    destruct (IH (mkSectors (sectorsRemoved s ∖ {[MerkleRoot d]})
                    (<[MerkleRoot d := d]> (sectorsGained s))
                    (merkleRoots s ++ [MerkleRoot d])) Hall)
      as (s' & h & Hrun & Hroots & Hdom & Hrem).
    cbn in Hroots, Hdom, Hrem. exists s', h. rewrite Hrun.
    split; [done|]. split; [|split].
    + rewrite Hroots. cbn [map]. by rewrite <- app_assoc.
    + rewrite Hdom, dom_insert_L. cbn [map list_to_set]. set_solver.
    + set_solver.
Qed.

Lemma foldl_dropRoot_dom (l : list Hash)
  (c : gmap Hash (list Byte.byte) * gset Hash) :
  dom (foldl dropRoot c l).1 = dom c.1 ∖ list_to_set l.
Proof.
  revert c. induction l as [|r l IH]; intros c.
  - cbn. set_solver.
  - cbn [foldl list_to_set]. rewrite IH. unfold dropRoot.
    destruct (c.1 !! r) as [d|] eqn:Hlk; cbn [fst].
    + rewrite dom_delete_L. set_solver.
    + apply not_elem_of_dom in Hlk. set_solver.
Qed.

(** The drop loop ends with nothing marked as removed exactly when it
    started so, the dropped roots are pairwise distinct and each of them
    was gained by the program. *)
Lemma foldl_dropRoot_removed_empty (l : list Hash)
  (c : gmap Hash (list Byte.byte) * gset Hash) :
  (foldl dropRoot c l).2 = ∅ <->
  c.2 = ∅ /\ NoDup l /\ (forall x, x ∈ l -> x ∈ dom c.1).
Proof.
  revert c. induction l as [|r l IH]; intros c.
  - cbn. split; [intros Hc|by intros (Hc & _)].
    repeat split; [done|constructor|]. intros x Hx. by apply elem_of_nil in Hx.
  - cbn [foldl]. rewrite IH. unfold dropRoot.
    destruct (c.1 !! r) as [d|] eqn:Hlk; cbn [fst snd].
    + assert (Hr : r ∈ dom c.1) by (apply elem_of_dom; eauto).
      rewrite NoDup_cons, dom_delete_L. split.
      * intros (Hc & Hnd & Hin). repeat split; [done| |done|].
        -- intros Hrl. specialize (Hin r Hrl). set_solver.
        -- intros x Hx. apply elem_of_cons in Hx as [->|Hx]; [done|].
           specialize (Hin x Hx). set_solver.
      * intros (Hc & (Hrl & Hnd) & Hin). repeat split; [done|done|].
        intros x Hx. apply elem_of_difference. split.
        -- apply Hin. by right.
        -- intros Hxr. apply elem_of_singleton in Hxr. by subst x.
    + apply not_elem_of_dom in Hlk. split.
      * intros (Hc & _). exfalso.
        assert (Hr : r ∈ ({[r]} ∪ c.2 : gset Hash)) by set_solver.
        rewrite Hc in Hr. by apply not_elem_of_empty in Hr.
      * intros (_ & _ & Hin). exfalso. apply Hlk, Hin. by left.
Qed.

Lemma appendThenDrop_run (base : list Hash) (datas : list (list Byte.byte)) :
  Forall (fun d => N.of_nat (length d) = SectorSize) datas ->
  exists s,
    appendThenDrop base datas = (s, Ok (cachedMerkleRoot base)) /\
    merkleRoots s = base /\
    sectorsGained s = ∅ /\
    (sectorsRemoved s = ∅ <-> NoDup (map MerkleRoot datas)).
Proof.
  intros Hall. unfold appendThenDrop.
  destruct (appendAll_ok datas (newSectors base) Hall)
    as (s1 & h & Hrun & Hroots & Hdom & Hrem).
  rewrite Hrun. cbn in Hroots, Hdom, Hrem.
  assert (Hrem1 : sectorsRemoved s1 = ∅) by set_solver.
  rewrite dom_empty_L, (left_id_L ∅ (∪)) in Hdom.
  unfold dropSectors. rewrite Hroots.
  assert (Hlen : N.to_nat (N.of_nat (length (base ++ map MerkleRoot datas))
                           - N.of_nat (length datas)) = length base).
  { rewrite length_app, length_map. lia. }
  replace (N.of_nat (length (base ++ map MerkleRoot datas))
           <? N.of_nat (length datas)) with false
    by (symmetry; apply N.ltb_ge; rewrite length_app, length_map; lia).
  rewrite Hlen, drop_app_length, take_app_length.
  eexists (mkSectors _ _ _). split; [reflexivity|]. cbn.
  split; [done|]. split.
  - apply dom_empty_iff_L. rewrite foldl_dropRoot_dom. cbn [fst].
    rewrite Hdom. set_solver.
  - rewrite foldl_dropRoot_removed_empty. cbn [fst snd]. split.
    + by intros (_ & Hnd & _).
    + intros Hnd. repeat split; [done|done|].
      intros x Hx. rewrite Hdom. by apply elem_of_list_to_set.
Qed.

(** C3 (amended). A program that starts from a fresh cache over any base
    root list, appends [k] sectors of [SectorSize] bytes and then drops [k]
    sectors, succeeds and ends with [merkleRoots] equal to the base list and
    with [sectorsGained] empty; [sectorsRemoved] is empty exactly when the
    appended sectors have pairwise distinct Merkle roots. *)
Theorem append_then_drop_cancels
  (base : list Hash) (datas : list (list Byte.byte)) :
  Forall (fun d => N.of_nat (length d) = SectorSize) datas ->
  exists s,
    appendThenDrop base datas = (s, Ok (cachedMerkleRoot base)) /\
    merkleRoots s = base /\
    sectorsGained s = ∅ /\
    (sectorsRemoved s = ∅ <-> NoDup (map MerkleRoot datas)).
Proof. apply appendThenDrop_run. Qed.

End SectorsFacts.

Lemma append_then_drop_cancels_witness :
  Forall (fun d => N.of_nat (length d) = @SectorSize sampleCrypto)
         [zeroSector; oneSector] /\
  exists s,
    appendThenDrop (crypto := sampleCrypto) [5] [zeroSector; oneSector]
      = (s, Ok (@cachedMerkleRoot sampleCrypto [5])) /\
    merkleRoots s = [5] /\
    sectorsGained s = ∅ /\
    (sectorsRemoved s = ∅ <->
     NoDup (map (@MerkleRoot sampleCrypto) [zeroSector; oneSector])).
Proof.
  assert (Hall : Forall (fun d => N.of_nat (length d) = @SectorSize sampleCrypto)
                        [zeroSector; oneSector])
    by (repeat constructor).
  split; [exact Hall|].
  exact (append_then_drop_cancels (crypto := sampleCrypto) [5]
           [zeroSector; oneSector] Hall).
Defined.

(** Scenario "Append + HasSector + Drop(1)" of the specification, over
    the empty root list: the appended root is found, and after the drop the
    root list is empty again with nothing gained and nothing removed. *)
Example append_has_drop :
  let appended := (appendSector (newSectors (crypto := sampleCrypto) [])
                                zeroSector).1 in
  hasSector appended (@MerkleRoot sampleCrypto zeroSector) = true /\
  exists s,
    dropSectors appended 1 = (s, Ok (@cachedMerkleRoot sampleCrypto [])) /\
    merkleRoots s = [] /\ sectorsGained s = ∅ /\ sectorsRemoved s = ∅.
Proof.
  cbn zeta. split; [reflexivity|].
  destruct (appendThenDrop_run (crypto := sampleCrypto) [] [zeroSector])
    as (s & Hrun & Hroots & Hgained & Hremoved); [repeat constructor|].
  exists s. split; [exact Hrun|]. split; [done|]. split; [done|].
  apply Hremoved. repeat constructor. by intros Hin%elem_of_nil.
Qed.

(** C3 as stated fails when a sector is appended twice: the second drop of
    the same root finds it no longer gained and marks it as removed. *)
Lemma append_twice_then_drop_marks_removed :
  Forall (fun d => N.of_nat (length d) = @SectorSize sampleCrypto)
         [zeroSector; zeroSector] /\
  ~ (exists s r,
       appendThenDrop (crypto := sampleCrypto) [] [zeroSector; zeroSector]
         = (s, r) /\
       merkleRoots s = [] /\ sectorsGained s = ∅ /\ sectorsRemoved s = ∅).
Proof.
  assert (Hall : Forall (fun d => N.of_nat (length d) = @SectorSize sampleCrypto)
                        [zeroSector; zeroSector])
    by (repeat constructor).
  split; [exact Hall|].
  intros (s & r & Hrun & _ & _ & Hrem).
  destruct (appendThenDrop_run (crypto := sampleCrypto) [] _ Hall)
    as (s' & Hrun' & _ & _ & Hiff).
  rewrite Hrun in Hrun'. injection Hrun' as -> _.
  apply Hiff in Hrem. apply NoDup_cons in Hrem as [Hnin _].
  apply Hnin. by left.
Qed.

Section SwapSectorFacts.
Context {crypto : Crypto}.
Variable fetch : ProgramData -> N -> outcome (result N).

(** C10. [Execute] of SwapSector does not depend on the order of its two
    argument offsets: when the data buffer yields the indices [a] and [b]
    at the two offsets, the instruction with the offsets exchanged leaves
    the same program state and returns the same output (size, Merkle root,
    proof, old leaf hashes).  This holds for any implementation of the data
    buffer and of the cache's [swapSectors]. *)
Theorem Execute_symmetric
  (swap : sectors -> N -> N -> sectors * result Hash)
  (i : instructionSwapSector) (prevOutput : output) (ps : sectors) (a b : N) :
  fetch (staticData i) (sector1Offset i) = Ret (Ok a) ->
  fetch (staticData i) (sector2Offset i) = Ret (Ok b) ->
  Execute fetch swap (swapArgs i) prevOutput ps
  = Execute fetch swap i prevOutput ps.
Proof.
  intros Ha Hb. unfold Execute. cbn [swapArgs staticData sector1Offset
    sector2Offset staticMerkleProof]. rewrite Ha, Hb.
  destruct (N.lt_trichotomy a b) as [Hlt|[->|Hgt]].
  - assert (Hab : (a <? b) = true) by (by apply N.ltb_lt).
    assert (Hba : (b <? a) = false) by (apply N.ltb_ge; lia).
    by rewrite Hab, Hba.
  - done.
  - assert (Hab : (a <? b) = false) by (apply N.ltb_ge; lia).
    assert (Hba : (b <? a) = true) by (by apply N.ltb_lt).
    by rewrite Hab, Hba.
Qed.

Lemma swapSectors_in_bounds (ps : sectors) (lo hi : N) (leafLo leafHi : Hash) :
  merkleRoots ps !! N.to_nat lo = Some leafLo ->
  merkleRoots ps !! N.to_nat hi = Some leafHi ->
  swapSectors ps lo hi =
    (let roots := if decide (lo = hi) then merkleRoots ps
                  else <[N.to_nat hi := leafLo]>
                         (<[N.to_nat lo := leafHi]> (merkleRoots ps)) in
     ({| sectorsRemoved := sectorsRemoved ps;
         sectorsGained := sectorsGained ps;
         merkleRoots := roots |}, Ok (cachedMerkleRoot roots))).
Proof. intros Hlo Hhi. unfold swapSectors. by rewrite Hlo, Hhi. Qed.

(** With the data buffer as the source has it, the first fetch panics. *)
Remark Execute_Uint64_stub
  (swap : sectors -> N -> N -> sectors * result Hash)
  (i : instructionSwapSector) (prevOutput : output) (ps : sectors) :
  Execute Uint64 swap i prevOutput ps = Panic "not implemented yet".
Proof. reflexivity. Qed.

(** C2. With [wantProof] set and both fetched indices inside the root list,
    let [lo <= hi] be the two indices in ascending order.  If [lo <> hi] the
    proof is [MerkleDiffProof] over exactly the ranges [lo, lo+1) and
    [hi, hi+1), and the output carries the two leaf hashes the list held at
    [lo] and [hi] before the swap.  If [lo = hi] there is exactly one range
    [lo, lo+1) and exactly one leaf hash, and the root list is unchanged. *)
Theorem Execute_proof_ranges
  (i : instructionSwapSector) (prevOutput : output) (ps : sectors) (a b : N) :
  staticMerkleProof i = true ->
  fetch (staticData i) (sector1Offset i) = Ret (Ok a) ->
  fetch (staticData i) (sector2Offset i) = Ret (Ok b) ->
  a < N.of_nat (length (merkleRoots ps)) ->
  b < N.of_nat (length (merkleRoots ps)) ->
  N.of_nat (length (merkleRoots ps)) < uint64_max ->
  let lo := N.min a b in
  let hi := N.max a b in
  let numLeaves := N.of_nat (length (merkleRoots ps)) in
  exists (leafLo leafHi : Hash) (ps' : sectors) (out : output),
    merkleRoots ps !! N.to_nat lo = Some leafLo /\
    merkleRoots ps !! N.to_nat hi = Some leafHi /\
    Execute fetch swapSectors i prevOutput ps = Ret (ps', out) /\
    Error out = None /\
    NewSize out = NewSize prevOutput /\
    NewMerkleRoot out = cachedMerkleRoot (merkleRoots ps') /\
    (lo <> hi ->
       Proof_ out =
         MerkleDiffProof [mkProofRange lo (lo + 1); mkProofRange hi (hi + 1)]
                         numLeaves [] (merkleRoots ps') /\
       Output out = Marshal [leafLo; leafHi] /\
       merkleRoots ps' =
         <[N.to_nat hi := leafLo]> (<[N.to_nat lo := leafHi]> (merkleRoots ps)))
    /\
    (lo = hi ->
       Proof_ out =
         MerkleDiffProof [mkProofRange lo (lo + 1)] numLeaves []
                         (merkleRoots ps') /\
       Output out = Marshal [leafLo] /\
       merkleRoots ps' = merkleRoots ps).
Proof.
  intros Hproof Ha Hb Hain Hbin Hmax lo hi numLeaves.
  assert (Hlo : lo < numLeaves) by (unfold lo, numLeaves; lia).
  assert (Hhi : hi < numLeaves) by (unfold hi, numLeaves; lia).
  destruct (lookup_lt_is_Some_2 (merkleRoots ps) (N.to_nat lo))
    as [leafLo HleafLo]; [unfold numLeaves in Hlo; lia|].
  destruct (lookup_lt_is_Some_2 (merkleRoots ps) (N.to_nat hi))
    as [leafHi HleafHi]; [unfold numLeaves in Hhi; lia|].
  exists leafLo, leafHi.
  unfold Execute. rewrite Ha, Hb, Hproof.
  replace (if b <? a then b else a) with lo
    by (unfold lo; destruct (N.ltb_spec b a); lia).
  replace (if b <? a then a else b) with hi
    by (unfold hi; destruct (N.ltb_spec b a); lia).
  rewrite (swapSectors_in_bounds ps lo hi leafLo leafHi HleafLo HleafHi).
  cbn zeta. cbn [merkleRoots].
  assert (Hlo1 : (lo + 1) mod uint64_max = lo + 1)
    by (apply N.mod_small; lia).
  assert (Hhi1 : (hi + 1) mod uint64_max = hi + 1)
    by (apply N.mod_small; lia).
  rewrite Hlo1, Hhi1.
  destruct (decide (lo = hi)) as [Heq|Hne].
  - rewrite <- Heq in *. rewrite HleafLo. rewrite N.eqb_refl. cbn [negb].
    do 2 eexists. split; [done|]. split; [congruence|].
    split; [reflexivity|]. cbn.
    repeat split; done.
  - assert (Hneq : N.to_nat lo <> N.to_nat hi) by lia.
    rewrite list_lookup_insert_eq
      by (rewrite length_insert; unfold numLeaves in Hhi; lia).
    rewrite list_lookup_insert_ne by lia.
    rewrite list_lookup_insert_eq by (unfold numLeaves in Hlo; lia).
    replace (lo =? hi) with false by (symmetry; by apply N.eqb_neq).
    cbn [negb app].
    do 2 eexists. split; [done|]. split; [done|].
    split; [reflexivity|]. cbn. rewrite !length_insert.
    repeat split; done.
Qed.

End SwapSectorFacts.

Lemma Execute_symmetric_witness :
  Uint64_spec (staticData sampleSwap) (sector1Offset sampleSwap) = Ret (Ok 2) /\
  Uint64_spec (staticData sampleSwap) (sector2Offset sampleSwap) = Ret (Ok 0) /\
  Execute (crypto := sampleCrypto) Uint64_spec swapSectors
          (swapArgs sampleSwap) samplePrev sampleCache
  = Execute (crypto := sampleCrypto) Uint64_spec swapSectors sampleSwap samplePrev
            sampleCache.
Proof.
  split; [reflexivity|]. split; [reflexivity|].
  exact (Execute_symmetric (crypto := sampleCrypto) Uint64_spec swapSectors
           sampleSwap samplePrev sampleCache 2 0
           eq_refl eq_refl).
Defined.

Lemma Execute_proof_ranges_witness :
  exists ps' out,
    Execute (crypto := sampleCrypto) Uint64_spec swapSectors sampleSwap
            samplePrev sampleCache = Ret (ps', out) /\
    Output out = @Marshal sampleCrypto [10; 30] /\
    Proof_ out =
      @MerkleDiffProof sampleCrypto [mkProofRange 0 1; mkProofRange 2 3] 3 []
                       [30; 20; 10] /\
    merkleRoots ps' = [30; 20; 10].
Proof.
  assert (Hin2 : 2 < N.of_nat (length (merkleRoots sampleCache)))
    by reflexivity.
  assert (Hin0 : 0 < N.of_nat (length (merkleRoots sampleCache)))
    by reflexivity.
  assert (Hmax : N.of_nat (length (merkleRoots sampleCache)) < uint64_max)
    by reflexivity.
  destruct (Execute_proof_ranges (crypto := sampleCrypto) Uint64_spec
              sampleSwap samplePrev sampleCache 2 0
              eq_refl eq_refl eq_refl Hin2 Hin0 Hmax)
    as (leafLo & leafHi & ps' & out & Hlo & Hhi & Hrun & _ & _ & _ & Hne & _).
  cbn in Hlo, Hhi. injection Hlo as <-. injection Hhi as <-.
  destruct Hne as (Hproof & Hout & Hroots); [discriminate|].
  exists ps', out. split; [exact Hrun|]. split; [exact Hout|].
  split; [|exact Hroots]. rewrite Hproof, Hroots. reflexivity.
Defined.

(** Scenario "swap at equal offsets" of the specification: over the roots
    [A, B, C], a swap of index 1 with itself keeps the list and emits the
    single range [1, 2) with the single leaf hash B. *)
Example Execute_swap_self :
  let pd := mkProgramData ([Byte.x01] ++ replicate 7 Byte.x00) in
  let i := mkSwapSector pd true 0 0 in
  exists ps' out,
    Execute (crypto := sampleCrypto) Uint64_spec swapSectors i samplePrev
            sampleCache = Ret (ps', out) /\
    merkleRoots ps' = [10; 20; 30] /\
    Output out = @Marshal sampleCrypto [20] /\
    Proof_ out =
      @MerkleDiffProof sampleCrypto [mkProofRange 1 2] 3 [] [10; 20; 30].
Proof. cbn zeta. do 2 eexists. split; [reflexivity|]. by cbn. Qed.

Example ProcessPayment_scenario_contract :
  exists h' st',
    ProcessPayment (env := sampleHostEnv)
      (sampleHost, sampleStream 2 [MsgPayByContractRequest samplePayByContract])
    = Ret ((h', st'),
           Ok (@mkPaymentDetails samplePaymentTypes EmptyString 500 200)).
Proof. do 2 eexists. vm_compute. reflexivity. Qed.

Section PaymentFacts.
Context {pt : PaymentTypes} {env : HostEnv}.

(** Inversion of a successful run through the combinators. *)
Lemma mbind_Ok {A B : Type} (c : M A) (k : A -> M B) s s' (b : B) :
  mbind c k s = Ret (s', Ok b) ->
  exists s1 a, c s = Ret (s1, Ok a) /\ k a s1 = Ret (s', Ok b).
Proof.
  unfold mbind. destruct (c s) as [[s1 [a|e]]|m]; intros Hrun;
    try discriminate. by exists s1, a.
Qed.

Lemma withContext_Ok {A : Type} (c : M A) ctx s s' (a : A) :
  withContext c ctx s = Ret (s', Ok a) -> c s = Ret (s', Ok a).
Proof.
  unfold withContext. destruct (c s) as [[s1 [a1|e]]|m]; intros Hrun;
    try discriminate; done.
Qed.

Lemma liftResult_Ok {A : Type} (r : result A) s s' (a : A) :
  liftResult r s = Ret (s', Ok a) -> r = Ok a /\ s' = s.
Proof. unfold liftResult. intros Hrun. by injection Hrun as -> ->. Qed.

Lemma liftOutcome_Ok {A : Type} (o : outcome A) s s' (a : A) :
  liftOutcome o s = Ret (s', Ok a) -> o = Ret a /\ s' = s.
Proof.
  unfold liftOutcome. destruct o as [a1|m]; intros Hrun; try discriminate.
  by injection Hrun as -> ->.
Qed.

Lemma RPCRead_Ok {A : Type} (decode : message -> option A) s s' (a : A) :
  RPCRead decode s = Ret (s', Ok a) ->
  exists m rest,
    incoming s.2 = m :: rest /\ decode m = Some a /\
    s' = (s.1, {| incoming := rest; outgoing := outgoing s.2;
                  writable := writable s.2 |}).
Proof.
  unfold RPCRead. destruct (incoming s.2) as [|m rest]; [discriminate|].
  destruct (decode m) as [a1|] eqn:Hdec; intros Hrun; try discriminate.
  injection Hrun as <- <-. by exists m, rest.
Qed.

Lemma verifyPayByContractRevision_Ok current payment bh (paid : Currency * Currency) :
  verifyPayByContractRevision current payment bh = Ok paid ->
  paid.1 = Currency_Sub (ValidHostPayout payment) (ValidHostPayout current) /\
  paid.2 = Currency_Sub (Value (MissedHostOutput current))
                        (Value (MissedHostOutput payment)).
Proof.
  unfold verifyPayByContractRevision.
  destruct (verifyPaymentRevision current payment bh ZeroCurrency);
    intros Hrun; try discriminate.
  by injection Hrun as <-.
Qed.

Lemma managedPayByContract_Ok s s' (pd : paymentDetails) :
  managedPayByContract s = Ret (s', Ok pd) ->
  exists pbcr rest so current new,
    incoming s.2 = MsgPayByContractRequest pbcr :: rest /\
    managedGetStorageObligation s.1 (ContractID pbcr) = Ok so /\
    recentRevision so = Ok current /\
    revisionFromRequest current pbcr = Ret new /\
    account pd = AccountID_empty /\
    amount pd =
      Currency_Sub (ValidHostPayout new) (ValidHostPayout current) /\
    addedCollateral pd =
      Currency_Sub (Value (MissedHostOutput current))
                   (Value (MissedHostOutput new)).
Proof.
  unfold managedPayByContract. intros Hrun.
  apply mbind_Ok in Hrun as (s1 & pbcr & Hread & Hrun).
  apply withContext_Ok, RPCRead_Ok in Hread as (m & rest & Hin & Hdec & ->).
  destruct m; try discriminate. injection Hdec as ->.
  apply mbind_Ok in Hrun as (s2 & h & Hget & Hrun).
  unfold getHost in Hget. injection Hget as <- <-. cbn [fst] in Hrun.
  apply mbind_Ok in Hrun as (s3 & so & Hso & Hrun).
  apply withContext_Ok, liftResult_Ok in Hso as [Hso ->].
  apply mbind_Ok in Hrun as (s4 & current & Hcur & Hrun).
  apply withContext_Ok, liftResult_Ok in Hcur as [Hcur ->].
  apply mbind_Ok in Hrun as (s5 & new & Hnew & Hrun).
  apply liftOutcome_Ok in Hnew as [Hnew ->].
  apply mbind_Ok in Hrun as (s6 & paid & Hpaid & Hrun).
  apply withContext_Ok, liftResult_Ok in Hpaid as [Hpaid ->].
  apply verifyPayByContractRevision_Ok in Hpaid as [Hamount Hcoll].
  apply mbind_Ok in Hrun as (s7 & txn & _ & Hrun).
  apply mbind_Ok in Hrun as (s8 & hostSig & _ & Hrun).
  apply mbind_Ok in Hrun as (s9 & [] & _ & Hrun).
  apply mbind_Ok in Hrun as (s10 & [] & _ & Hrun).
  unfold mret in Hrun. injection Hrun as _ <-.
  exists pbcr, rest, so, current, new. cbn. by repeat split.
Qed.

(** C1. When [ProcessPayment] accepts a payment of kind [PayByContract], the
    payment details it returns carry the empty account id, the amount
    [new.ValidHostPayout() - current.ValidHostPayout()] and the collateral
    [current.MissedHostOutput().Value - new.MissedHostOutput().Value],
    where [current] is the obligation's most recent revision and [new] is
    the revision built from the request by [revisionFromRequest]. *)
Theorem ProcessPayment_contract_details
  (h h' : Host) (st st' : stream) (pr : PaymentRequest)
  (body : list message) (pd : paymentDetails) :
  incoming st = MsgPaymentRequest pr :: body ->
  Type_ pr = PayByContract ->
  ProcessPayment (h, st) = Ret ((h', st'), Ok pd) ->
  exists pbcr rest so current new,
    body = MsgPayByContractRequest pbcr :: rest /\
    managedGetStorageObligation h (ContractID pbcr) = Ok so /\
    recentRevision so = Ok current /\
    revisionFromRequest current pbcr = Ret new /\
    account pd = AccountID_empty /\
    amount pd =
      Currency_Sub (ValidHostPayout new) (ValidHostPayout current) /\
    addedCollateral pd =
      Currency_Sub (Value (MissedHostOutput current))
                   (Value (MissedHostOutput new)).
Proof.
  intros Hin Hkind Hrun. unfold ProcessPayment in Hrun.
  apply mbind_Ok in Hrun as (s1 & pr' & Hread & Hrun).
  apply withContext_Ok, RPCRead_Ok in Hread as (m & rest & Hin' & Hdec & ->).
  cbn [fst snd] in *. rewrite Hin in Hin'. injection Hin' as <- <-.
  injection Hdec as <-. rewrite Hkind in Hrun.
  destruct (decide (PayByContract = PayByEphemeralAccount)) as [Heq|_].
  { symmetry in Heq. by apply PayBy_distinct in Heq. }
  destruct (decide (PayByContract = PayByContract)) as [_|Hne]; [|done].
  apply managedPayByContract_Ok in Hrun. exact Hrun.
Qed.

(** C5 (amended). For a payment request whose kind is neither
    [PayByEphemeralAccount] nor [PayByContract], [ProcessPayment] consumes
    the request header only: the host is unchanged (no withdrawal, no
    revision built or signed, no obligation modified), nothing is written
    to the stream, and the returned error is the composition of "Could not
    handle payment method" with [ErrUnknownPaymentMethod]. *)
Theorem ProcessPayment_unknown_kind
  (h : Host) (st : stream) (pr : PaymentRequest) (body : list message) :
  incoming st = MsgPaymentRequest pr :: body ->
  Type_ pr <> PayByEphemeralAccount ->
  Type_ pr <> PayByContract ->
  exists err,
    ProcessPayment (h, st)
    = Ret ((h, {| incoming := body; outgoing := outgoing st;
                  writable := writable st |}), Err err) /\
    err = Compose (Errorf "Could not handle payment method %v"
                          [showSpecifier (Type_ pr)])
                  ErrUnknownPaymentMethod /\
    Contains err ErrUnknownPaymentMethod = true.
Proof.
  intros Hin Hea Hct. eexists. split; [|split; [reflexivity|]].
  - unfold ProcessPayment, mbind, withContext, RPCRead. cbn [fst snd].
    rewrite Hin. cbn [asPaymentRequest].
    destruct (decide (Type_ pr = PayByEphemeralAccount)); [done|].
    destruct (decide (Type_ pr = PayByContract)); [done|].
    reflexivity.
  - reflexivity.
Qed.

Lemma outputsFromValues_Ret (values : list Currency)
  (recent : list SiacoinOutput) (i : nat) :
  (exists outs, outputsFromValues i values recent = Ret outs) <->
  (values = [] \/ (i + length values <= length recent)%nat).
Proof.
  revert i. induction values as [|v values IH]; intros i.
  - cbn. split; [by left|]. intros _. by eexists.
  - cbn [outputsFromValues length]. split.
    + intros [outs Hrun]. right.
      destruct (recent !! i) as [o|] eqn:Hlk; [|discriminate].
      apply lookup_lt_Some in Hlk.
      destruct (outputsFromValues (S i) values recent) as [outs'|m] eqn:Hrest;
        [|discriminate].
      destruct (proj1 (IH (S i))) as [->|Hle]; [by eexists|cbn; lia|lia].
    + intros [Hnil|Hle]; [discriminate|].
      destruct (lookup_lt_is_Some_2 recent i) as [o Hlk]; [lia|].
      rewrite Hlk.
      destruct (proj2 (IH (S i))) as [outs Hrest].
      { destruct values; [by left|right; cbn in *; lia]. }
      rewrite Hrest. by eexists.
Qed.

Lemma outputsFromValues_Panic (values : list Currency)
  (recent : list SiacoinOutput) :
  (length recent < length values)%nat ->
  outputsFromValues 0 values recent = Panic "index out of range".
Proof.
  intros Hlt.
  cut (forall i, (i <= length recent < i + length values)%nat ->
         outputsFromValues i values recent = Panic "index out of range").
  { intros Hall. apply Hall. lia. }
  clear Hlt. induction values as [|v values IH]; intros i Hlt.
  - cbn in Hlt. lia.
  - cbn [outputsFromValues]. destruct (recent !! i) as [o|] eqn:Hlk; [|done].
    apply lookup_lt_Some in Hlk. rewrite IH; [done|]. cbn in Hlt. lia.
Qed.

Lemma revisionFromRequest_Ret (recent : FileContractRevision)
  (pbcr : PayByContractRequest) :
  (exists new, revisionFromRequest recent pbcr = Ret new) <->
  (length (NewValidProofValues pbcr) <= length (NewValidProofOutputs recent)
   /\ length (NewMissedProofValues pbcr)
       <= length (NewMissedProofOutputs recent))%nat.
Proof.
  unfold revisionFromRequest. split.
  - intros [new Hrun].
    destruct (outputsFromValues 0 (NewValidProofValues pbcr) _)
      as [valid|m] eqn:Hvalid; [|discriminate].
    destruct (outputsFromValues 0 (NewMissedProofValues pbcr) _)
      as [missed|m] eqn:Hmissed; [|discriminate].
    split.
    + destruct (proj1 (outputsFromValues_Ret (NewValidProofValues pbcr)
                         (NewValidProofOutputs recent) 0)) as [->|Hle];
        [by eexists|cbn; lia|lia].
    + destruct (proj1 (outputsFromValues_Ret (NewMissedProofValues pbcr)
                         (NewMissedProofOutputs recent) 0)) as [->|Hle];
        [by eexists|cbn; lia|lia].
  - intros [Hv Hm].
    destruct (proj2 (outputsFromValues_Ret (NewValidProofValues pbcr)
                       (NewValidProofOutputs recent) 0)) as [valid ->];
      [right; lia|].
    destruct (proj2 (outputsFromValues_Ret (NewMissedProofValues pbcr)
                       (NewMissedProofOutputs recent) 0)) as [missed ->];
      [right; lia|].
    by eexists.
Qed.

Lemma revisionFromRequest_Panic (recent : FileContractRevision)
  (pbcr : PayByContractRequest) :
  (length (NewValidProofOutputs recent) < length (NewValidProofValues pbcr)
   \/ length (NewMissedProofOutputs recent)
       < length (NewMissedProofValues pbcr))%nat ->
  revisionFromRequest recent pbcr = Panic "index out of range".
Proof.
  intros Hlong. unfold revisionFromRequest.
  destruct (outputsFromValues 0 (NewValidProofValues pbcr) _)
    as [valid|m] eqn:Hvalid.
  - destruct Hlong as [Hlong|Hlong].
    + rewrite (outputsFromValues_Panic _ _ Hlong) in Hvalid. discriminate.
    + by rewrite (outputsFromValues_Panic _ _ Hlong).
  - destruct (Nat.lt_ge_cases (length (NewValidProofOutputs recent))
                              (length (NewValidProofValues pbcr)))
      as [Hlt|Hge].
    + rewrite (outputsFromValues_Panic _ _ Hlt) in Hvalid. congruence.
    + destruct (proj2 (outputsFromValues_Ret (NewValidProofValues pbcr)
                         (NewValidProofOutputs recent) 0)) as [outs Hret];
        [right; lia|congruence].
Qed.

(** C8. A [PayByContract] payment only runs to a result when the request's
    value vectors are no longer than the output vectors of the obligation's
    most recent revision: [revisionFromRequest] returns exactly under that
    condition, and when a vector is longer the handler panics with an index
    out of range while building the revision, before
    [verifyPaymentRevision] and its output-count check are called. *)
Theorem managedPayByContract_longer_values_panic
  (h : Host) (st : stream) (pbcr : PayByContractRequest)
  (rest : list message) (so : storageObligation)
  (current : FileContractRevision) :
  incoming st = MsgPayByContractRequest pbcr :: rest ->
  managedGetStorageObligation h (ContractID pbcr) = Ok so ->
  recentRevision so = Ok current ->
  ((exists new, revisionFromRequest current pbcr = Ret new) <->
   (length (NewValidProofValues pbcr) <= length (NewValidProofOutputs current)
    /\ length (NewMissedProofValues pbcr)
        <= length (NewMissedProofOutputs current))%nat)
  /\
  ((length (NewValidProofOutputs current) < length (NewValidProofValues pbcr)
    \/ length (NewMissedProofOutputs current)
        < length (NewMissedProofValues pbcr))%nat ->
   managedPayByContract (h, st) = Panic "index out of range").
Proof.
  intros Hin Hso Hcur. split; [apply revisionFromRequest_Ret|].
  intros Hlong. unfold managedPayByContract, mbind, withContext, RPCRead,
    getHost, liftResult, liftOutcome.
  cbn [fst snd]. rewrite Hin. cbn [asPayByContractRequest fst snd].
  rewrite Hso, Hcur. by rewrite (revisionFromRequest_Panic _ _ Hlong).
Qed.

End PaymentFacts.

Section PaymentRuns.
#[local] Existing Instance samplePaymentTypes.
#[local] Existing Instance sampleHostEnv.

Lemma ProcessPayment_contract_details_witness :
  let pd := @mkPaymentDetails samplePaymentTypes EmptyString 500 200 in
  exists pbcr rest so current new,
    [MsgPayByContractRequest samplePayByContract]
      = MsgPayByContractRequest pbcr :: rest /\
    managedGetStorageObligation (HostEnv := sampleHostEnv) sampleHost
      (ContractID pbcr) = Ok so /\
    recentRevision so = Ok current /\
    revisionFromRequest current pbcr = Ret new /\
    account pd = EmptyString /\
    amount pd = N.sub (ValidHostPayout new) (ValidHostPayout current) /\
    addedCollateral pd
      = N.sub (Value (MissedHostOutput current)) (Value (MissedHostOutput new)).
Proof.
  intros pd.
  eapply (ProcessPayment_contract_details (env := sampleHostEnv) sampleHost _
            (sampleStream 2 [MsgPayByContractRequest samplePayByContract])
            _ _ _ pd).
  - reflexivity.
  - reflexivity.
  - vm_compute. reflexivity.
Defined.

Lemma ProcessPayment_unknown_kind_witness :
  exists err,
    ProcessPayment (env := sampleHostEnv) (sampleHost, sampleStream 3 [])
    = Ret ((sampleHost, @mkStream samplePaymentTypes [] [] true), Err err) /\
    err = Compose (Errorf "Could not handle payment method %v" ["3"%string])
                  ErrUnknownPaymentMethod /\
    Contains err ErrUnknownPaymentMethod = true.
Proof.
  apply (ProcessPayment_unknown_kind (env := sampleHostEnv) sampleHost
           (sampleStream 3 []) (@mkPaymentRequest samplePaymentTypes 3) []).
  - reflexivity.
  - discriminate.
  - discriminate.
Defined.

(** C5 as stated fails: on an unknown kind [ProcessPayment] returns the
    error to its caller and writes no reply to the stream. *)
Lemma unknown_kind_writes_no_reply :
  ~ (exists h' st' e,
       ProcessPayment (env := sampleHostEnv) (sampleHost, sampleStream 3 [])
       = Ret ((h', st'), Err e) /\
       exists reply,
         MsgError reply ∈ outgoing st' /\
         Contains reply ErrUnknownPaymentMethod = true).
Proof.
  intros (h' & st' & e & Hrun & reply & Hin & _).
  vm_compute in Hrun. injection Hrun as _ <- _.
  cbn in Hin. by apply elem_of_nil in Hin.
Qed.

Lemma managedPayByContract_longer_values_panic_witness :
  (length (NewValidProofOutputs (sampleObligation_revision sampleHost))
   < length (NewValidProofValues longPayByContract))%nat /\
  managedPayByContract (env := sampleHostEnv)
    (sampleHost, @mkStream samplePaymentTypes
                   [MsgPayByContractRequest longPayByContract] [] true)
  = Panic "index out of range".
Proof.
  split; [cbn; lia|].
  apply (managedPayByContract_longer_values_panic (env := sampleHostEnv)
           sampleHost _ longPayByContract [] (sampleObligation sampleHost)
           (sampleObligation_revision sampleHost));
    [reflexivity|reflexivity|reflexivity|].
  left. cbn. lia.
Defined.

End PaymentRuns.

Section SkyfileFacts.
Context {crypto : Crypto} {renv : RenterEnv}.
Variable encryptionEnabled : SkyfileUploadParameters -> bool.
Variable SkyfileLayout_Encode : SkyfileLayout -> list Byte.byte.
Variable BuildBaseSector :
  list Byte.byte -> list Byte.byte -> list Byte.byte -> list Byte.byte ->
  list Byte.byte * N.
Variable encryptBaseSectorWithSkykey :
  list Byte.byte -> SkyfileLayout -> Skykey -> result (list Byte.byte).

Lemma tooBigContext_head (mb fb : list Byte.byte) :
  exists rest, tooBigContext mb fb = String "s" rest.
Proof. eexists. reflexivity. Qed.

Lemma tooBig_not_context {A B : Type} (x x' : A) (y y' : B) (e : error)
  (c : ascii) (ctx : string) (mb fb : list Byte.byte) :
  c <> "s"%char ->
  (x, (y, Some (AddContext e (String c ctx))))
  <> (x', (y', Some (AddContext ErrMetadataTooBig (tooBigContext mb fb)))).
Proof.
  intros Hc Heq. destruct (tooBigContext_head mb fb) as [rest Hrest].
  rewrite Hrest in Heq. injection Heq as _ _ _ Heq _. done.
Qed.

(** C6 (amended). For a call that passes the checks made before the size
    test (metadata valid, file node not blocked, cipher key fitting the
    layout, erasure code supported, metadata marshalled, fanout encoded),
    [managedCreateSkylinkFromFileNode] fails with [ErrMetadataTooBig] exactly
    when layout size + metadata size + fanout size exceeds [SectorSize];
    in that case it returns before [BuildBaseSector] and before any upload,
    with no effect performed. *)
Theorem managedCreateSkylinkFromFileNode_too_big
  (sup : SkyfileUploadParameters) (skyfileMetadata : SkyfileMetadata)
  (fileNode : FileNode) (fanoutReader : option Reader)
  (metadataBytes fanoutBytes : list Byte.byte) :
  ValidateSkyfileMetadata skyfileMetadata = None ->
  isFileNodeBlocked fileNode = false ->
  (length (MasterKey_Key fileNode) <= KeyDataLen)%nat ->
  ErasureCode_Type fileNode = ECReedSolomonSubShards64 ->
  SkyfileMetadataBytes skyfileMetadata = Ok metadataBytes ->
  skyfileEncodeFanout fileNode fanoutReader = Ok fanoutBytes ->
  SkyfileLayoutSize + N.of_nat (length metadataBytes)
    + N.of_nat (length fanoutBytes) < uint64_max ->
  let run :=
    managedCreateSkylinkFromFileNode encryptionEnabled SkyfileLayout_Encode
      BuildBaseSector encryptBaseSectorWithSkykey
      sup skyfileMetadata fileNode fanoutReader in
  let tooBig :=
    AddContext ErrMetadataTooBig (tooBigContext metadataBytes fanoutBytes) in
  let headerSize :=
    SkyfileLayoutSize + N.of_nat (length metadataBytes)
    + N.of_nat (length fanoutBytes) in
  ((exists events skylink, run = (events, (skylink, Some tooBig)))
   <-> SectorSize < headerSize)
  /\
  (SectorSize < headerSize -> run = ([], (Skylink_zero, Some tooBig)))
  /\
  (headerSize <= SectorSize ->
   exists sl events res,
     run = (EvBuildBaseSector sl fanoutBytes metadataBytes :: events, res)).
Proof.
  intros Hvalid Hblocked Hkey Hec Hmd Hfanout Hrange run tooBig headerSize.
  unfold run, managedCreateSkylinkFromFileNode.
  rewrite Hvalid, Hblocked, Hmd, Hfanout.
  replace (KeyDataLen <? length (MasterKey_Key fileNode))%nat with false
    by (symmetry; apply Nat.ltb_ge; lia).
  rewrite (bool_decide_eq_true_2 _ Hec). cbn [negb].
  rewrite (N.mod_small _ _ Hrange). fold headerSize.
  destruct (N.ltb_spec SectorSize headerSize) as [Hbig|Hfits].
  - split; [|split].
    + split; [done|]. intros _. by do 2 eexists.
    + done.
    + lia.
  - split; [|split]; [split|..]; [|lia|lia|].
    + intros (events & skylink & Hrun). exfalso. revert Hrun.
      destruct (BuildBaseSector _ fanoutBytes metadataBytes [])
        as [baseSector fetchSize].
      destruct (encryptionEnabled sup).
      * destruct (encryptBaseSectorWithSkykey _ _ _) as [enc|e].
        2:{ intros Hrun. by apply tooBig_not_context in Hrun. }
        destruct (NewSkylinkV1 _ _ _) as [link|e].
        2:{ intros Hrun. by apply tooBig_not_context in Hrun. }
        destruct (DryRun sup); [discriminate|].
        destruct (IsBlocked link).
        { destruct (DeleteFile _); discriminate. }
        destruct (AddSkylink fileNode link) as [e|].
        { intros Hrun. by apply tooBig_not_context in Hrun. }
        destruct (managedUploadBaseSector sup enc link) as [tr [e|]];
          [|discriminate].
        intros Hrun. by apply tooBig_not_context in Hrun.
      * destruct (NewSkylinkV1 _ _ _) as [link|e].
        2:{ intros Hrun. by apply tooBig_not_context in Hrun. }
        destruct (DryRun sup); [discriminate|].
        destruct (IsBlocked link).
        { destruct (DeleteFile _); discriminate. }
        destruct (AddSkylink fileNode link) as [e|].
        { intros Hrun. by apply tooBig_not_context in Hrun. }
        destruct (managedUploadBaseSector sup baseSector link) as [tr [e|]];
          [|discriminate].
        intros Hrun. by apply tooBig_not_context in Hrun.
    + intros _.
      destruct (BuildBaseSector _ fanoutBytes metadataBytes [])
        as [baseSector fetchSize].
      destruct (encryptionEnabled sup);
        repeat (match goal with
                | |- context [match ?x with _ => _ end] => destruct x
                | |- context [if ?x then _ else _] => destruct x
                end); cbn [app]; by do 3 eexists.
Qed.

End SkyfileFacts.

Example tooBigContext_sample :
  tooBigContext (crypto := sampleCrypto) (renv := sampleRenterEnv)
    [Byte.x61] [Byte.x01; Byte.x02; Byte.x03]
  = "skyfile does not fit in leading chunk - metadata size plus fanout size must be less than 3 bytes, metadata size is 1 bytes and fanout size is 3 bytes"%string.
Proof. reflexivity. Qed.

Lemma managedCreateSkylinkFromFileNode_too_big_witness :
  sampleCreateSkylink [Byte.x61] ([Byte.x01; Byte.x02; Byte.x03], ["abc"%string])
  = ([], (0, Some (AddContext ErrMetadataTooBig
                     (tooBigContext (crypto := sampleCrypto)
                        (renv := sampleRenterEnv)
                        [Byte.x61] [Byte.x01; Byte.x02; Byte.x03])))).
Proof.
  refine (proj1 (proj2
    (managedCreateSkylinkFromFileNode_too_big (renv := sampleRenterEnv)
       (fun _ => false) (fun sl => [Byte.x01]) sampleBuildBaseSector
       (fun b _ _ => Ok b) sampleSUP [Byte.x61]
       ([Byte.x01; Byte.x02; Byte.x03], ["abc"%string]) None
       [Byte.x61] [Byte.x01; Byte.x02; Byte.x03]
       eq_refl eq_refl _ eq_refl eq_refl eq_refl eq_refl)) eq_refl).
  cbn. lia.
Defined.

(** C6 as stated fails when an earlier check rejects the call: with a
    layout, metadata and fanout of 5 bytes for a sector of 4, invalid
    metadata gives [ErrInvalidMetadata] and a blocked file node gives
    [ErrSkylinkBlocked]; neither error contains [ErrMetadataTooBig]. *)
Lemma oversize_header_other_error :
  let invalid : list Byte.byte := [] in
  let fanout4 := ([Byte.x01; Byte.x02; Byte.x03; Byte.x04], ["abc"%string]) in
  let blocked := ([Byte.x01; Byte.x02; Byte.x03], [""%string]) in
  let oversize (md : list Byte.byte) (fileNode : list Byte.byte * list string) :=
    exists metadataBytes fanoutBytes,
      SkyfileMetadataBytes (RenterEnv := sampleRenterEnv) md
        = Ok metadataBytes /\
      skyfileEncodeFanout (RenterEnv := sampleRenterEnv) fileNode None
        = Ok fanoutBytes /\
      @SectorSize sampleCrypto
      < SkyfileLayoutSize (RenterEnv := sampleRenterEnv)
        + N.of_nat (length metadataBytes) + N.of_nat (length fanoutBytes) in
  let tooBig (md : list Byte.byte) (fileNode : list Byte.byte * list string) :=
    exists events skylink e,
      sampleCreateSkylink md fileNode = (events, (skylink, Some e)) /\
      Contains e ErrMetadataTooBig = true in
  (oversize invalid fanout4 /\ ~ tooBig invalid fanout4 /\
   sampleCreateSkylink invalid fanout4
   = ([], (0, Some (Compose ErrInvalidMetadata (ErrNew "empty filename")))))
  /\
  (oversize [Byte.x61] blocked /\ ~ tooBig [Byte.x61] blocked /\
   sampleCreateSkylink [Byte.x61] blocked
   = ([EvDeleteFile (crypto := sampleCrypto) (renv := sampleRenterEnv)
         "base"%string],
      (0, Some ErrSkylinkBlocked))).
Proof.
  cbv zeta. split; (split; [|split]).
  - exists [], [Byte.x01; Byte.x02; Byte.x03; Byte.x04].
    repeat split; vm_compute; reflexivity.
  - intros (events & skylink & e & Hrun & Hc).
    vm_compute in Hrun. injection Hrun as _ _ <-.
    vm_compute in Hc. discriminate.
  - vm_compute. reflexivity.
  - exists [Byte.x61], [Byte.x01; Byte.x02; Byte.x03].
    repeat split; vm_compute; reflexivity.
  - intros (events & skylink & e & Hrun & Hc).
    vm_compute in Hrun. injection Hrun as _ _ <-.
    vm_compute in Hc. discriminate.
  - vm_compute. reflexivity.
Qed.

Section BlockFacts.
Context {benv : types.BlockEnv}.

Lemma joinAllSubTrees_nonempty (next : types.Tree) (head : types.SubTree) :
  types.joinAllSubTrees head next <> [].
Proof.
  revert head. induction next as [|st rest IH]; intros head; cbn; [done|].
  destruct (types.height head =? types.height st)%nat; [apply IH|done].
Qed.

Lemma foldl_Push_nonempty (leaves : list (list Byte.byte)) (t : types.Tree) :
  leaves <> [] \/ t <> [] -> foldl types.Push t leaves <> [].
Proof.
  revert t. induction leaves as [|d leaves IH]; intros t Hne.
  - cbn. by destruct Hne.
  - cbn [foldl]. apply IH. right. apply joinAllSubTrees_nonempty.
Qed.

(** C7 (as the code has it). The template returned by [BlockTemplate] has an
    empty [MerkleBranches] field for every block, while [MerkleBranches()]
    is non-empty for every block with a miner payout or a transaction: the
    two differ on every such block. *)
Theorem BlockTemplate_omits_MerkleBranches (b : types.Block) :
  types.MerkleBranches (types.Block_BlockTemplate b) = [] /\
  (types.MinerPayouts b <> [] \/ types.Transactions b <> [] ->
   types.Block_MerkleBranches b <> [] /\
   types.MerkleBranches (types.Block_BlockTemplate b)
   <> types.Block_MerkleBranches b).
Proof.
  split; [reflexivity|]. intros Hne.
  assert (Hbr : types.Block_MerkleBranches b <> []).
  { unfold types.Block_MerkleBranches. intros Hnil.
    apply fmap_nil_inv in Hnil. revert Hnil. apply foldl_Push_nonempty.
    left. unfold types.blockLeaves. intros Happ.
    apply app_eq_nil in Happ as [Hp Ht].
    apply fmap_nil_inv in Hp. apply fmap_nil_inv in Ht.
    destruct Hne; done. }
  split; [done|]. cbn. congruence.
Qed.

End BlockFacts.

Example sampleBlock_branches :
  types.MerkleBranches (types.Block_BlockTemplate sampleBlock) = [] /\
  types.Block_MerkleBranches sampleBlock
  = [sampleHex [Byte.x00; Byte.x70]].
Proof. split; reflexivity. Qed.

(** * Further properties of the sector cache (mdm/sectors.go) *)

Section SectorsMore.
Context {crypto : Crypto}.

Lemma occurrences_cons (root r : Hash) (l : list Hash) :
  occurrences root (r :: l)
  = ((if decide (r = root) then 1 else 0) + occurrences root l)%nat.
Proof.
  unfold occurrences. rewrite filter_cons.
  by destruct (decide (r = root)).
Qed.

Lemma occurrences_pos (root : Hash) (l : list Hash) :
  (1 <= occurrences root l)%nat <-> root ∈ l.
Proof.
  induction l as [|r l IH].
  - cbn. split; [lia|]. by intros ?%elem_of_nil.
  - rewrite occurrences_cons, elem_of_cons.
    destruct (decide (r = root)) as [->|Hne].
    + split; [by left|lia].
    + rewrite <- IH. split; [intros; right; lia|].
      intros [Heq|Hocc]; [by subst|lia].
Qed.

Lemma occurrences_app (root : Hash) (l1 l2 : list Hash) :
  occurrences root (l1 ++ l2)
  = (occurrences root l1 + occurrences root l2)%nat.
Proof. unfold occurrences. by rewrite filter_app, length_app. Qed.

(** The drop loop in closed form: what is left in [sectorsGained] ... *)
Lemma foldl_dropRoot_gained (l : list Hash)
  (c : gmap Hash (list Byte.byte) * gset Hash) (k : Hash) :
  (foldl dropRoot c l).1 !! k = if decide (k ∈ l) then None else c.1 !! k.
Proof.
  revert c. induction l as [|r l IH]; intros c.
  - cbn. destruct (decide (k ∈ [])) as [Hin|_]; [|done].
    by apply elem_of_nil in Hin.
  - cbn [foldl]. rewrite IH. unfold dropRoot.
    destruct (decide (k ∈ l)) as [Hin|Hnin].
    + rewrite decide_True; [done|by right].
    + destruct (decide (k = r)) as [->|Hne].
      * rewrite decide_True by (by left).
        destruct (c.1 !! r) eqn:Hlk; cbn [fst]; [apply lookup_delete_eq|done].
      * rewrite decide_False by (rewrite elem_of_cons; tauto).
        destruct (c.1 !! r) eqn:Hlk; cbn [fst]; [|done].
        by rewrite lookup_delete_ne.
Qed.

(** ... and what ends up marked in [sectorsRemoved]. *)
Lemma foldl_dropRoot_removed (l : list Hash)
  (c : gmap Hash (list Byte.byte) * gset Hash) (root : Hash) :
  root ∈ (foldl dropRoot c l).2 <->
  root ∈ c.2 \/ (root ∈ l /\ c.1 !! root = None)
  \/ (2 <= occurrences root l)%nat.
Proof.
  revert c. induction l as [|r l IH]; intros c.
  - cbn. split; [by left|]. intros [Hin|[[Hin _]|Hocc]]; [done| |lia].
    by apply elem_of_nil in Hin.
  - cbn [foldl]. rewrite IH, occurrences_cons, elem_of_cons.
    pose proof (occurrences_pos root l) as Hpos.
    unfold dropRoot. destruct (c.1 !! r) as [d|] eqn:Hlk; cbn [fst snd].
    + destruct (decide (r = root)) as [->|Hne].
      * rewrite lookup_delete_eq, Hlk. split.
        -- intros [Hin|[[Hin _]|Hocc]]; [by left| |].
           ++ right. right. apply Hpos in Hin. lia.
           ++ right. right. lia.
        -- intros [Hin|[[_ Hnone]|Hocc]]; [by left|done|].
           right. left. split; [|done]. apply Hpos. lia.
      * rewrite lookup_delete_ne by done. split.
        -- intros [Hin|[[Hin Hnone]|Hocc]]; [by left| |].
           ++ right. left. split; [by right|done].
           ++ right. right. lia.
        -- intros [Hin|[[[Heq|Hin] Hnone]|Hocc]]; [by left|by subst| |].
           ++ right. left. by split.
           ++ right. right. lia.
    + rewrite elem_of_union, elem_of_singleton.
      destruct (decide (r = root)) as [->|Hne].
      * split; [|by intros; left; left].
        intros _. right. left. split; [by left|done].
      * split.
        -- intros [[Heq|Hin]|[[Hin Hnone]|Hocc]]; [by subst|by left| |].
           ++ right. left. split; [by right|done].
           ++ right. right. lia.
        -- intros [Hin|[[[Heq|Hin] Hnone]|Hocc]];
             [by left; right|by subst| |].
           ++ right. left. by split.
           ++ right. right. lia.
Qed.

(** X1. [dropSectors] fails exactly when more sectors are dropped than the
    list holds, and then leaves the cache as it was.  Otherwise it keeps
    the first [len - n] roots and returns their Merkle root; a sector stays
    in [sectorsGained] exactly when its root is not among the dropped
    slots; and a root is marked in [sectorsRemoved] exactly when it already
    was, or it was dropped without having been gained, or it was dropped
    from at least two slots. *)
Theorem dropSectors_spec (s : sectors) (n : N) :
  let len := N.of_nat (length (merkleRoots s)) in
  let kept := N.to_nat (len - n) in
  let dropped := drop kept (merkleRoots s) in
  (len < n /\ exists e, dropSectors s n = (s, Err e))
  \/
  (n <= len /\
   exists s',
     dropSectors s n = (s', Ok (cachedMerkleRoot (merkleRoots s'))) /\
     merkleRoots s' = take kept (merkleRoots s) /\
     (forall k, sectorsGained s' !! k
                = if decide (k ∈ dropped) then None else sectorsGained s !! k) /\
     (forall r, r ∈ sectorsRemoved s' <->
                r ∈ sectorsRemoved s
                \/ (r ∈ dropped /\ sectorsGained s !! r = None)
                \/ (2 <= occurrences r dropped)%nat)).
Proof.
  intros len kept dropped. unfold dropSectors. fold len.
  destruct (N.ltb_spec len n) as [Hlt|Hle].
  - left. split; [done|]. by eexists.
  - right. split; [done|]. eexists (mkSectors _ _ _).
    split; [reflexivity|]. cbn [merkleRoots sectorsGained sectorsRemoved].
    split; [done|]. split.
    + intros k. by rewrite foldl_dropRoot_gained.
    + intros r. by rewrite foldl_dropRoot_removed.
Qed.

Lemma hasSector_loop_iff (roots : list Hash) (sectorRoot : Hash) :
  hasSector_loop roots sectorRoot = true <-> sectorRoot ∈ roots.
Proof.
  induction roots as [|root roots IH]; cbn.
  - split; [done|]. by intros ?%elem_of_nil.
  - rewrite elem_of_cons. destruct (decide (root = sectorRoot)) as [->|Hne].
    + split; [by left|done].
    + rewrite IH. split; [by right|]. intros [Heq|Hin]; [by subst|done].
Qed.


(** X3. A sector that was just appended is read back unchanged from the
    cache under its Merkle root, without the host being asked. *)
Theorem readSector_after_appendSector (s : sectors)
  (sectorData : list Byte.byte)
  (host_ReadSector : Hash -> result (list Byte.byte)) :
  N.of_nat (length sectorData) = SectorSize ->
  hasSector (appendSector s sectorData).1 (MerkleRoot sectorData) = true /\
  readSector (appendSector s sectorData).1 host_ReadSector
             (MerkleRoot sectorData) = Ok sectorData.
Proof.
  intros Hlen. rewrite (appendSector_ok s sectorData Hlen). cbn [fst].
  assert (Hhas : hasSector
            {| sectorsRemoved := sectorsRemoved s ∖ {[MerkleRoot sectorData]};
               sectorsGained := <[MerkleRoot sectorData:=sectorData]>
                                  (sectorsGained s);
               merkleRoots := merkleRoots s ++ [MerkleRoot sectorData] |}
            (MerkleRoot sectorData) = true).
  { apply hasSector_loop_iff. cbn. apply elem_of_app. right. by left. }
  split; [done|]. unfold readSector. rewrite Hhas. cbn.
  by rewrite lookup_insert_eq.
Qed.




(** X5. Appending a sector and dropping one sector leaves the root list as
    it was, with the sector's root absent from both [sectorsGained] and
    [sectorsRemoved]; so the cache is exactly restored when the root was
    neither gained nor removed before, and otherwise an earlier gained copy
    or removal mark of the same root is lost. *)
Theorem appendSector_dropSectors_one (s : sectors)
  (sectorData : list Byte.byte) :
  N.of_nat (length sectorData) = SectorSize ->
  let root := MerkleRoot sectorData in
  dropSectors (appendSector s sectorData).1 1
  = ({| sectorsRemoved := sectorsRemoved s ∖ {[root]};
        sectorsGained := delete root (sectorsGained s);
        merkleRoots := merkleRoots s |},
     Ok (cachedMerkleRoot (merkleRoots s)))
  /\
  (sectorsGained s !! root = None -> root ∉ sectorsRemoved s ->
   dropSectors (appendSector s sectorData).1 1
   = (s, Ok (cachedMerkleRoot (merkleRoots s)))).
Proof.
  intros Hlen root.
  assert (Hrun : dropSectors (appendSector s sectorData).1 1
    = ({| sectorsRemoved := sectorsRemoved s ∖ {[root]};
          sectorsGained := delete root (sectorsGained s);
          merkleRoots := merkleRoots s |},
       Ok (cachedMerkleRoot (merkleRoots s)))).
  { rewrite (appendSector_ok s sectorData Hlen). cbn [fst].
    unfold dropSectors. cbn [merkleRoots sectorsGained sectorsRemoved].
    replace (N.of_nat (length (merkleRoots s ++ [MerkleRoot sectorData]))
             <? 1) with false
      by (symmetry; apply N.ltb_ge; rewrite length_app; cbn; lia).
    replace (N.to_nat (N.of_nat (length (merkleRoots s
                                         ++ [MerkleRoot sectorData])) - 1))
      with (length (merkleRoots s)) by (rewrite length_app; cbn; lia).
    rewrite drop_app_length, take_app_length. cbn [foldl].
    unfold dropRoot. cbn [fst snd]. rewrite lookup_insert_eq. cbn [fst snd].
    by rewrite delete_insert_eq. }
  split; [exact Hrun|]. intros Hfresh Hnotremoved. rewrite Hrun.
  destruct s as [removed gained roots]. cbn in *. f_equal. f_equal.
  - apply difference_disjoint_L. by apply disjoint_singleton_r.
  - by apply delete_id.
Qed.

Lemma dropSectors_ok (s : sectors) (n : N) :
  n <= N.of_nat (length (merkleRoots s)) ->
  dropSectors s n =
    (let kept := (length (merkleRoots s) - N.to_nat n)%nat in
     let c := foldl dropRoot (sectorsGained s, sectorsRemoved s)
                    (drop kept (merkleRoots s)) in
     ({| sectorsRemoved := c.2; sectorsGained := c.1;
         merkleRoots := take kept (merkleRoots s) |},
      Ok (cachedMerkleRoot (take kept (merkleRoots s))))).
Proof.
  intros Hle. unfold dropSectors.
  replace (N.of_nat (length (merkleRoots s)) <? n) with false
    by (symmetry; apply N.ltb_ge; lia).
  replace (N.to_nat (N.of_nat (length (merkleRoots s)) - n))
    with (length (merkleRoots s) - N.to_nat n)%nat by lia.
  reflexivity.
Qed.

Lemma foldl_dropRoot_app_comm (l1 l2 : list Hash)
  (c : gmap Hash (list Byte.byte) * gset Hash) :
  foldl dropRoot c (l1 ++ l2) = foldl dropRoot c (l2 ++ l1).
Proof.
  apply injective_projections.
  - apply map_eq. intros k. rewrite !foldl_dropRoot_gained.
    destruct (decide (k ∈ l1 ++ l2)) as [Hin|Hnin];
      destruct (decide (k ∈ l2 ++ l1)) as [Hin'|Hnin']; try done;
      set_solver.
  - apply set_eq. intros r. rewrite !foldl_dropRoot_removed.
    rewrite !occurrences_app, !elem_of_app.
    split; (intros [?|[[[?|?] ?]|?]];
            [by left|right; left; tauto|right; left; tauto|right; right; lia]).
Qed.

(** X6. Dropping [a] sectors and then [b] sectors gives the same cache and
    the same returned Merkle root as dropping [a + b] sectors at once,
    whenever the list holds that many. *)
Theorem dropSectors_dropSectors (s : sectors) (a b : N) :
  a + b <= N.of_nat (length (merkleRoots s)) ->
  dropSectors (dropSectors s a).1 b = dropSectors s (a + b).
Proof.
  intros Hle.
  rewrite (dropSectors_ok s a) by lia.
  rewrite (dropSectors_ok s (a + b)) by lia. cbn zeta. cbn [fst].
  rewrite dropSectors_ok
    by (cbn [merkleRoots]; rewrite length_take; lia).
  cbn zeta. cbn [merkleRoots sectorsGained sectorsRemoved].
  rewrite length_take.
  set (len := length (merkleRoots s)).
  set (k1 := (len - N.to_nat a)%nat).
  replace (k1 `min` len - N.to_nat b)%nat with (len - N.to_nat (a + b))%nat
    by (unfold k1; lia).
  set (k2 := (len - N.to_nat (a + b))%nat).
  assert (Hk : (k2 <= k1 <= len)%nat) by (unfold k1, k2; lia).
  rewrite take_take. replace (k2 `min` k1)%nat with k2 by lia.
  assert (Hdrop : drop k2 (merkleRoots s)
                  = drop k2 (take k1 (merkleRoots s)) ++ drop k1 (merkleRoots s)).
  { rewrite <- (take_drop k1 (merkleRoots s)) at 1.
    rewrite drop_app_le; [done|]. rewrite length_take. fold len. lia. }
  rewrite Hdrop, <- surjective_pairing, <- foldl_app.
  by rewrite (foldl_dropRoot_app_comm (drop k1 (merkleRoots s))).
Qed.

(** X7. Dropping the last sector and appending the same bytes again leaves
    the root list as it was, stages the sector in [sectorsGained] and
    clears its root from [sectorsRemoved]. *)
Theorem dropSectors_appendSector_last (s : sectors) (l : list Hash)
  (sectorData : list Byte.byte) :
  N.of_nat (length sectorData) = SectorSize ->
  merkleRoots s = l ++ [MerkleRoot sectorData] ->
  let root := MerkleRoot sectorData in
  appendSector (dropSectors s 1).1 sectorData
  = ({| sectorsRemoved := sectorsRemoved s ∖ {[root]};
        sectorsGained := <[root := sectorData]> (sectorsGained s);
        merkleRoots := merkleRoots s |},
     Ok (cachedMerkleRoot (merkleRoots s))).
Proof.
  intros Hlen Hroots root. rewrite (appendSector_ok _ sectorData Hlen).
  unfold dropSectors. rewrite Hroots.
  replace (N.of_nat (length (l ++ [MerkleRoot sectorData])) <? 1) with false
    by (symmetry; apply N.ltb_ge; rewrite length_app; cbn; lia).
  replace (N.to_nat (N.of_nat (length (l ++ [MerkleRoot sectorData])) - 1))
    with (length l) by (rewrite length_app; cbn; lia).
  rewrite drop_app_length, take_app_length. cbn [foldl fst].
  cbn [merkleRoots sectorsGained sectorsRemoved]. fold root.
  unfold dropRoot. cbn [fst snd].
  destruct (sectorsGained s !! root) as [d|] eqn:Hlk; cbn [fst snd].
  - by rewrite insert_delete_eq.
  - replace (({[root]} ∪ sectorsRemoved s) ∖ {[root]})
      with (sectorsRemoved s ∖ {[root]}); [done|].
    apply set_eq. intros r. set_solver.
Qed.

End SectorsMore.

Section SectorsMoreRuns.
#[local] Existing Instance sampleCrypto.

Lemma readSector_after_appendSector_witness :
  hasSector (appendSector sampleCache zeroSector).1 (MerkleRoot zeroSector)
  = true /\
  readSector (appendSector sampleCache zeroSector).1
             (fun _ => Err (ErrNew "host has no such sector"))
             (MerkleRoot zeroSector) = Ok zeroSector.
Proof.
  exact (readSector_after_appendSector sampleCache zeroSector
           (fun _ => Err (ErrNew "host has no such sector")) eq_refl).
Defined.


Lemma appendSector_dropSectors_one_witness :
  dropSectors (appendSector sampleCache zeroSector).1 1
  = (sampleCache, Ok (cachedMerkleRoot (merkleRoots sampleCache))).
Proof.
  refine (proj2 (appendSector_dropSectors_one sampleCache zeroSector eq_refl)
                _ _).
  - reflexivity.
  - cbn. apply not_elem_of_empty.
Defined.

Lemma dropSectors_dropSectors_witness :
  dropSectors (dropSectors sampleCache 1).1 1 = dropSectors sampleCache 2.
Proof.
  apply (dropSectors_dropSectors sampleCache 1 1). cbn. lia.
Defined.

Lemma dropSectors_appendSector_last_witness :
  let s := (appendSector sampleCache zeroSector).1 in
  appendSector (dropSectors s 1).1 zeroSector
  = ({| sectorsRemoved := sectorsRemoved s ∖ {[MerkleRoot zeroSector]};
        sectorsGained := <[MerkleRoot zeroSector := zeroSector]>
                           (sectorsGained s);
        merkleRoots := merkleRoots s |},
     Ok (cachedMerkleRoot (merkleRoots s))).
Proof.
  intros s.
  exact (dropSectors_appendSector_last s (sampleRoots : list (@Hash sampleCrypto)) zeroSector
           eq_refl eq_refl).
Defined.

End SectorsMoreRuns.

(** * Further properties of the payment handlers (modules/host/payment.go) *)

Section PaymentMore.
Context {pt : PaymentTypes} {env : HostEnv}.

Ltac run_handler H :=
  unfold ProcessPayment, staticPayByEphemeralAccount, managedPayByContract,
    mbind, withContext, RPCRead, RPCWrite, getHost, liftResult, liftOutcome,
    liftHost, mret, mfail, verifyPayByContractRevision in H;
  cbn [fst snd] in H;
  repeat (first
    [ progress simplify_eq
    | progress cbn [fst snd incoming outgoing writable asPaymentRequest
                    asPayByEphemeralAccountRequest asPayByContractRequest] in *
    | match goal with
      | Hd : asPaymentRequest ?m = _ |- _ => is_var m; destruct m
      | Hd : asPayByEphemeralAccountRequest ?m = _ |- _ => is_var m; destruct m
      | Hd : asPayByContractRequest ?m = _ |- _ => is_var m; destruct m
      end
    | case_match ]).

(** X8. When [ProcessPayment] accepts a payment of kind
    [PayByEphemeralAccount], the withdrawal of the requested message
    succeeded on the account manager, the details carry the message's
    account and amount with zero collateral, and exactly one response, with
    the withdrawn amount, was written to the stream. *)
Theorem ProcessPayment_ephemeral_details
  (h h' : Host) (st st' : stream) (pr : PaymentRequest)
  (body : list message) (pd : paymentDetails) :
  incoming st = MsgPaymentRequest pr :: body ->
  Type_ pr = PayByEphemeralAccount ->
  ProcessPayment (h, st) = Ret ((h', st'), Ok pd) ->
  exists req rest,
    body = MsgPayByEphemeralAccountRequest req :: rest /\
    callWithdraw h (Message req) (ea_Signature req) (Priority req)
      = (h', None) /\
    pd = {| account := Account (Message req);
            amount := Amount (Message req);
            addedCollateral := ZeroCurrency |} /\
    st' = {| incoming := rest;
             outgoing := outgoing st
                         ++ [MsgPayByEphemeralAccountResponse
                               (Amount (Message req))];
             writable := true |}.
Proof.
  intros Hin Hkind Hrun. run_handler Hrun; try done.
  by eexists _, _.
Qed.

Lemma length_copySignature (b : list Byte.byte) :
  length (copySignature b) = 64%nat.
Proof.
  unfold copySignature. rewrite length_take, length_app, length_replicate. lia.
Qed.

(** X9. Whatever the host and the stream hold, [ProcessPayment] reads at
    most two objects from the stream; when it returns an error it has
    written nothing to the stream, and when it accepts a payment it has
    written exactly one object: the ephemeral-account response carrying the
    paid amount, or the contract response carrying a 64-byte signature. *)
Theorem ProcessPayment_stream_discipline
  (s s' : Host * stream) (r : result paymentDetails) :
  ProcessPayment s = Ret (s', r) ->
  (exists consumed,
     incoming s.2 = consumed ++ incoming s'.2 /\ (length consumed <= 2)%nat)
  /\
  match r with
  | Err _ => outgoing s'.2 = outgoing s.2
  | Ok pd =>
      exists m,
        outgoing s'.2 = outgoing s.2 ++ [m] /\
        (m = MsgPayByEphemeralAccountResponse (amount pd)
         \/ exists sig, m = MsgPayByContractResponse sig
                        /\ length sig = 64%nat)
  end.
Proof.
  destruct s as [h st]. intros Hrun. run_handler Hrun.
  all: cbn [fst snd incoming outgoing].
  all: split;
    [ first [ exists []; split; [cbn; first [reflexivity|congruence]|cbn; lia]
            | eexists [_]; split; [cbn; reflexivity|cbn; lia]
            | eexists [_; _]; split; [cbn; reflexivity|cbn; lia] ]
    | try done ].
  - eexists. split; [done|]. by left.
  - eexists. split; [done|]. right. eexists. split; [done|].
    apply length_copySignature.
Qed.

(** X10. [managedPayByContract] changes the host only through
    [managedModifyStorageObligation], and calls it only with an obligation
    whose single transaction holds the revision built from the request, after
    [verifyPaymentRevision] accepted that revision against the most recent
    one and [createRevisionSignature] signed it.  Every earlier failure
    returns an error and leaves the host as it was; a failure to modify
    the obligation or to send the response is reported as an error although
    the modification was attempted or done. *)
Theorem managedPayByContract_host_change
  (h h' : Host) (st st' : stream) (r : result paymentDetails) :
  managedPayByContract (h, st) = Ret ((h', st'), r) ->
  (h' = h /\
   exists e0 ctx,
     r = Err (AddContext e0 ctx) /\
     In ctx ["Could not read PayByContractRequest";
             "Could not fetch storage obligation";
             "Could not find the most recent revision";
             "Invalid payment revision";
             "Could not create revision signature"]%string)
  \/
  (exists pbcr rest so current new txn hostSignature merr,
     incoming st = MsgPayByContractRequest pbcr :: rest /\
     managedGetStorageObligation h (ContractID pbcr) = Ok so /\
     recentRevision so = Ok current /\
     revisionFromRequest current pbcr = Ret new /\
     verifyPaymentRevision current new (BlockHeight h) ZeroCurrency = None /\
     createRevisionSignature new (signatureFromRequest current pbcr)
       (secretKey h) (blockHeight h) = Ok txn /\
     TransactionSignatures txn !! 1%nat = Some hostSignature /\
     managedModifyStorageObligation h
       {| RevisionTransactionSet :=
            [ {| FileContractRevisions := [new];
                 TransactionSignatures :=
                   [signatureFromRequest current pbcr; hostSignature] |} ];
          obligationRest := obligationRest so |}
     = (h', merr) /\
     match merr with
     | Some e0 =>
         r = Err (AddContext e0 "Could not modify storage obligation")
     | None =>
         (exists pd, r = Ok pd) \/
         (exists e0,
            r = Err (AddContext e0 "Could not send PayByContractResponse"))
     end).
Proof.
  intros Hrun. run_handler Hrun.
  all: try (left; split; [done|]; eexists _, _; split; [done|];
            cbn; tauto).
  all: right; eexists _, _, _, _, _, _, _, _; repeat split; try done;
    cbn; eauto.
Qed.

(** X11. [staticPayByEphemeralAccount] fails in exactly three ways, and
    never after writing to the stream: the request cannot be read (the host
    is unchanged), the withdrawal is refused (the error is the account
    manager's, wrapped in "Withdraw failed"), or the response cannot be sent;
    in the last case the withdrawal has already been made and is not
    undone. *)
Theorem staticPayByEphemeralAccount_errors
  (h h' : Host) (st st' : stream) (e : error) :
  staticPayByEphemeralAccount (h, st) = Ret ((h', st'), Err e) ->
  outgoing st' = outgoing st /\
  ((h' = h /\
    exists e0,
      e = AddContext e0 "Could not read PayByEphemeralAccountRequest")
   \/
   (exists req rest e0,
      incoming st = MsgPayByEphemeralAccountRequest req :: rest /\
      callWithdraw h (Message req) (ea_Signature req) (Priority req)
        = (h', Some e0) /\
      e = AddContext e0 "Withdraw failed")
   \/
   (exists req rest e0,
      incoming st = MsgPayByEphemeralAccountRequest req :: rest /\
      callWithdraw h (Message req) (ea_Signature req) (Priority req)
        = (h', None) /\
      e = AddContext e0 "Could not send PayByEphemeralAccountResponse")).
Proof.
  intros Hrun. run_handler Hrun; (split; [done|]).
  all: first
    [ by left; split; [done|]; eexists
    | by right; left; eexists _, _, _
    | by right; right; eexists _, _, _ ].
Qed.

Lemma outputsFromValues_structure (values : list Currency)
  (recent outs : list SiacoinOutput) (i : nat) :
  outputsFromValues i values recent = Ret outs ->
  map Value outs = values /\
  map UnlockHash outs
  = map UnlockHash (take (length values) (drop i recent)).
Proof.
  revert i outs. induction values as [|v values IH]; intros i outs.
  - cbn. by intros [= <-].
  - cbn [outputsFromValues length].
    destruct (recent !! i) as [o|] eqn:Hlk; [|discriminate].
    destruct (outputsFromValues (S i) values recent) as [outs'|m] eqn:Hrest;
      [|discriminate].
    intros [= <-]. destruct (IH _ _ Hrest) as [Hv Hu].
    rewrite (drop_S _ _ _ Hlk). cbn. by rewrite Hv, Hu.
Qed.

(** X12. The revision that [revisionFromRequest] builds keeps the parent
    contract id and every other field of the recent revision, takes its
    revision number from the request, and has one output per requested
    value: the values are the request's, in order, and the unlock hashes are
    those of the recent revision's outputs at the same positions. *)
Theorem revisionFromRequest_structure
  (recent new : FileContractRevision) (pbcr : PayByContractRequest) :
  revisionFromRequest recent pbcr = Ret new ->
  ParentID new = ParentID recent /\
  revisionRest new = revisionRest recent /\
  NewRevisionNumber new = pbcr_NewRevisionNumber pbcr /\
  map Value (NewValidProofOutputs new) = NewValidProofValues pbcr /\
  map UnlockHash (NewValidProofOutputs new)
  = map UnlockHash (take (length (NewValidProofValues pbcr))
                         (NewValidProofOutputs recent)) /\
  map Value (NewMissedProofOutputs new) = NewMissedProofValues pbcr /\
  map UnlockHash (NewMissedProofOutputs new)
  = map UnlockHash (take (length (NewMissedProofValues pbcr))
                         (NewMissedProofOutputs recent)).
Proof.
  unfold revisionFromRequest.
  destruct (outputsFromValues 0 (NewValidProofValues pbcr) _)
    as [valid|m] eqn:Hvalid; [|discriminate].
  destruct (outputsFromValues 0 (NewMissedProofValues pbcr) _)
    as [missed|m] eqn:Hmissed; [|discriminate].
  intros [= <-]. cbn.
  apply outputsFromValues_structure in Hvalid as [Hv1 Hv2].
  apply outputsFromValues_structure in Hmissed as [Hm1 Hm2].
  by rewrite Hv1, Hv2, Hm1, Hm2.
Qed.

End PaymentMore.

Section PaymentMoreRuns.
#[local] Existing Instance samplePaymentTypes.
#[local] Existing Instance sampleHostEnv.

Lemma ProcessPayment_ephemeral_details_witness :
  exists h' st' pd req rest,
    ProcessPayment
      (sampleHost, sampleStream 1 [MsgPayByEphemeralAccountRequest samplePayByEA])
    = Ret ((h', st'), Ok pd) /\
    [MsgPayByEphemeralAccountRequest samplePayByEA]
    = MsgPayByEphemeralAccountRequest req :: rest /\
    pd = {| account := Account (Message req);
            amount := Amount (Message req);
            addedCollateral := ZeroCurrency |}.
Proof.
  eexists _, _, _.
  assert (Hrun : ProcessPayment
      (sampleHost, sampleStream 1 [MsgPayByEphemeralAccountRequest samplePayByEA])
    = Ret ((_, _), Ok _)) by (vm_compute; reflexivity).
  destruct (ProcessPayment_ephemeral_details (env := sampleHostEnv) sampleHost _
              (sampleStream 1 [MsgPayByEphemeralAccountRequest samplePayByEA])
              _ (@mkPaymentRequest samplePaymentTypes 1)
              [MsgPayByEphemeralAccountRequest samplePayByEA] _
              eq_refl eq_refl Hrun) as (req & rest & Hbody & _ & Hpd & _).
  exists req, rest. split; [exact Hrun|]. by split.
Defined.

Lemma ProcessPayment_stream_discipline_witness :
  exists s' pd,
    ProcessPayment
      (sampleHost, sampleStream 2 [MsgPayByContractRequest samplePayByContract])
    = Ret (s', Ok pd) /\
    exists m, outgoing s'.2 = [] ++ [m].
Proof.
  eexists _, _.
  assert (Hrun : ProcessPayment
      (sampleHost, sampleStream 2 [MsgPayByContractRequest samplePayByContract])
    = Ret (_, Ok _)) by (vm_compute; reflexivity).
  split; [exact Hrun|].
  destruct (ProcessPayment_stream_discipline (env := sampleHostEnv) _ _ _ Hrun)
    as [_ (m & Hout & _)].
  by exists m.
Defined.

Lemma managedPayByContract_host_change_witness :
  exists h' st' r,
    managedPayByContract
      (sampleHost, @mkStream samplePaymentTypes
                     [MsgPayByContractRequest samplePayByContract] [] true)
    = Ret ((h', st'), r) /\
    sh_revision h' = 8.
Proof.
  eexists _, _, _.
  assert (Hrun : managedPayByContract
      (sampleHost, @mkStream samplePaymentTypes
                     [MsgPayByContractRequest samplePayByContract] [] true)
    = Ret ((_, _), _)) by (vm_compute; reflexivity).
  split; [exact Hrun|].
  destruct (managedPayByContract_host_change (env := sampleHostEnv) _ _ _ _ _ Hrun)
    as [[_ (e0 & ctx & Herr & _)]|_]; [discriminate Herr|reflexivity].
Defined.

Lemma staticPayByEphemeralAccount_errors_witness :
  exists h' st' e,
    staticPayByEphemeralAccount
      (sampleHost, closedStream [MsgPayByEphemeralAccountRequest samplePayByEA])
    = Ret ((h', st'), Err e) /\
    outgoing st' = [] /\
    sh_withdrawn h' = 1000.
Proof.
  eexists _, _, _.
  assert (Hrun : staticPayByEphemeralAccount
      (sampleHost, closedStream [MsgPayByEphemeralAccountRequest samplePayByEA])
    = Ret ((_, _), Err _)) by (vm_compute; reflexivity).
  split; [exact Hrun|].
  destruct (staticPayByEphemeralAccount_errors (env := sampleHostEnv) _ _ _ _ _ Hrun) as [Hout _].
  split; [exact Hout|reflexivity].
Defined.

Lemma revisionFromRequest_structure_witness :
  exists new,
    revisionFromRequest (sampleObligation_revision sampleHost)
                        samplePayByContract = Ret new /\
    map Value (NewValidProofOutputs new) = [1500; 1500] /\
    map UnlockHash (NewMissedProofOutputs new) = [11; 12; 13].
Proof.
  eexists.
  assert (Hrun : revisionFromRequest (sampleObligation_revision sampleHost)
                   samplePayByContract = Ret _) by (vm_compute; reflexivity).
  split; [exact Hrun|].
  destruct (revisionFromRequest_structure (pt := samplePaymentTypes) _ _ _ Hrun)
    as (_ & _ & _ & Hv & _ & _ & Hm).
  split; [exact Hv|exact Hm].
Defined.

End PaymentMoreRuns.

(** * Further properties of skylink creation (modules/renter/skyfile.go) *)

Section SkyfileMore.
Context {crypto : Crypto} {renv : RenterEnv}.
Variable encryptionEnabled : SkyfileUploadParameters -> bool.
Variable SkyfileLayout_Encode : SkyfileLayout -> list Byte.byte.
Variable BuildBaseSector :
  list Byte.byte -> list Byte.byte -> list Byte.byte -> list Byte.byte ->
  list Byte.byte * N.
Variable encryptBaseSectorWithSkykey :
  list Byte.byte -> SkyfileLayout -> Skykey -> result (list Byte.byte).

(** X13. A file node counts as blocked exactly when one of the skylink
    strings recorded for it parses and the parsed skylink is on the
    blocklist; strings that fail to parse are skipped and never block. *)
Theorem isFileNodeBlocked_iff (fileNode : FileNode) :
  isFileNodeBlocked fileNode = true <->
  exists skylinkstr skylink,
    skylinkstr ∈ fileNode_Skylinks fileNode /\
    Skylink_LoadString skylinkstr = Ok skylink /\
    IsBlocked skylink = true.
Proof.
  unfold isFileNodeBlocked. rewrite existsb_exists. split.
  - intros (str & Hin & Hblocked). apply list_elem_of_In in Hin.
    destruct (Skylink_LoadString str) as [link|e] eqn:Hload; [|done].
    by exists str, link.
  - intros (str & link & Hin & Hload & Hblocked). exists str.
    split; [by apply list_elem_of_In|]. by rewrite Hload.
Qed.

(** X14. [managedUploadBaseSector] uploads the base sector it is given, as
    it is, with one data piece and [redundancy - 1] parity pieces, where a
    redundancy of 0 stands for [SkyfileDefaultBaseChunkRedundancy]; the
    upload uses the plain cipher, has partial chunks disabled and is not a
    repair.  The skylink is added to the uploaded file node only after a
    successful upload, and that node is then closed whether or not adding
    the skylink worked. *)
Theorem managedUploadBaseSector_upload
  (sup : SkyfileUploadParameters) (baseSector : list Byte.byte)
  (skylink : Skylink) :
  let redundancy :=
    if BaseChunkRedundancy sup =? 0 then SkyfileDefaultBaseChunkRedundancy
    else BaseChunkRedundancy sup in
  let '(events, err) := managedUploadBaseSector sup baseSector skylink in
  match NewRSSubCode 1 (Z.of_N redundancy - 1) SegmentSize with
  | Err e =>
      events = [] /\
      err = Some (AddContext (AddContext e "unable to create erasure coder")
                    "failed to create siafile upload parameters")
  | Ok ec =>
      let up := {| fup_SiaPath := sup_SiaPath sup; ErasureCode := ec;
                   fup_Force := sup_Force sup; DisablePartialChunk := true;
                   Repair := false; fup_CipherType := TypePlain |} in
      match callUploadStreamFromReader_ (sup_SiaPath sup) ec (sup_Force sup)
              TypePlain baseSector with
      | Err e =>
          events = [EvUploadStream up baseSector] /\
          err = Some (AddContext e "failed to stream upload small skyfile")
      | Ok fileNode =>
          events = [EvUploadStream up baseSector;
                    EvAddSkylink fileNode skylink; EvClose fileNode] /\
          (err = None <->
           AddSkylink fileNode skylink = None /\
           fileNode_Close fileNode = None)
      end
  end.
Proof.
  intros redundancy.
  unfold managedUploadBaseSector, baseSectorUploadParamsFromSUP,
    fileUploadParams, skyfileEstablishDefaults.
  assert (Hred : BaseChunkRedundancy
            (if BaseChunkRedundancy sup =? 0
             then {| sup_SiaPath := sup_SiaPath sup; DryRun := DryRun sup;
                     sup_Force := sup_Force sup;
                     BaseChunkRedundancy := SkyfileDefaultBaseChunkRedundancy;
                     FileSpecificSkykey := FileSpecificSkykey sup |}
             else sup) = redundancy)
    by (unfold redundancy; by destruct (BaseChunkRedundancy sup =? 0)).
  assert (Hpath : forall b : bool,
            sup_SiaPath (if b then
              {| sup_SiaPath := sup_SiaPath sup; DryRun := DryRun sup;
                 sup_Force := sup_Force sup;
                 BaseChunkRedundancy := SkyfileDefaultBaseChunkRedundancy;
                 FileSpecificSkykey := FileSpecificSkykey sup |} else sup)
            = sup_SiaPath sup) by (by intros []).
  assert (Hforce : forall b : bool,
            sup_Force (if b then
              {| sup_SiaPath := sup_SiaPath sup; DryRun := DryRun sup;
                 sup_Force := sup_Force sup;
                 BaseChunkRedundancy := SkyfileDefaultBaseChunkRedundancy;
                 FileSpecificSkykey := FileSpecificSkykey sup |} else sup)
            = sup_Force sup) by (by intros []).
  cbn zeta. rewrite Hred, Hpath, Hforce.
  destruct (NewRSSubCode 1 (Z.of_N redundancy - 1) SegmentSize) as [ec|e];
    [|done].
  cbn [fup_SiaPath ErasureCode fup_Force fup_CipherType].
  destruct (callUploadStreamFromReader_ _ ec _ TypePlain baseSector)
    as [fileNode|e]; [|done].
  split; [done|].
  destruct (AddSkylink fileNode skylink), (fileNode_Close fileNode); cbn;
    split; try done; by intros [? ?].
Qed.

Lemma managedUploadBaseSector_uploads_given (sup : SkyfileUploadParameters)
  (baseSector bytes : list Byte.byte) (skylink : Skylink)
  (up : FileUploadParams) :
  EvUploadStream up bytes ∈ (managedUploadBaseSector sup baseSector skylink).1 ->
  bytes = baseSector.
Proof.
  unfold managedUploadBaseSector.
  destruct (baseSectorUploadParamsFromSUP sup) as [params|e]; cbn.
  - destruct (callUploadStreamFromReader_ _ _ _ _ _) as [node|e]; cbn;
      intros Hin;
      repeat (apply elem_of_cons in Hin as [Hin|Hin]; [by simplify_eq|]);
      by apply elem_of_nil in Hin.
  - by intros ?%elem_of_nil.
Qed.

Lemma managedCreateSkylinkFromFileNode_upload_inv
  (sup : SkyfileUploadParameters) (skyfileMetadata : SkyfileMetadata)
  (fileNode : FileNode) (fanoutReader : option Reader)
  (up : FileUploadParams) (bytes : list Byte.byte) :
  EvUploadStream up bytes
  ∈ (managedCreateSkylinkFromFileNode encryptionEnabled SkyfileLayout_Encode
       BuildBaseSector encryptBaseSectorWithSkykey
       sup skyfileMetadata fileNode fanoutReader).1 ->
  DryRun sup = false /\
  ValidateSkyfileMetadata skyfileMetadata = None /\
  isFileNodeBlocked fileNode = false /\
  (exists metadataBytes fanoutBytes,
     SkyfileMetadataBytes skyfileMetadata = Ok metadataBytes /\
     skyfileEncodeFanout fileNode fanoutReader = Ok fanoutBytes /\
     (SkyfileLayoutSize + N.of_nat (length metadataBytes)
      + N.of_nat (length fanoutBytes)) mod uint64_max <= SectorSize) /\
  (exists skylink fetchSize,
     NewSkylinkV1 (MerkleRoot bytes) 0 fetchSize = Ok skylink /\
     IsBlocked skylink = false /\
     AddSkylink fileNode skylink = None).
Proof.
  unfold managedCreateSkylinkFromFileNode.
  destruct (ValidateSkyfileMetadata skyfileMetadata) as [e|] eqn:Hvalid;
    [by intros ?%elem_of_nil|].
  destruct (isFileNodeBlocked fileNode) eqn:Hblocked.
  { cbn. rewrite elem_of_cons. intros [?|?%elem_of_nil]; done. }
  destruct (_ <? _)%nat; [by intros ?%elem_of_nil|].
  destruct (negb _); [by intros ?%elem_of_nil|].
  destruct (SkyfileMetadataBytes skyfileMetadata) as [mb|e] eqn:Hmb;
    [|by intros ?%elem_of_nil].
  destruct (skyfileEncodeFanout fileNode fanoutReader) as [fb|e] eqn:Hfb;
    [|by intros ?%elem_of_nil].
  cbn zeta.
  destruct (N.ltb_spec SectorSize
              ((SkyfileLayoutSize + N.of_nat (length mb)
                + N.of_nat (length fb)) mod uint64_max)) as [Hbig|Hfits];
    [by intros ?%elem_of_nil|].
  destruct (BuildBaseSector _ fb mb []) as [baseSector fetchSize].
  set (encrypted := if encryptionEnabled sup
                    then encryptBaseSectorWithSkykey _ _ _ else _).
  set (built := if encryptionEnabled sup then _ ++ _ else _).
  assert (Hbuilt : EvUploadStream up bytes ∉ built).
  { unfold built. destruct (encryptionEnabled sup); cbn; intros Hin;
      repeat (apply elem_of_cons in Hin as [Hin|Hin]; [by simplify_eq|]);
      by apply elem_of_nil in Hin. }
  destruct encrypted as [sector|e]; [|done].
  destruct (NewSkylinkV1 (MerkleRoot sector) 0 fetchSize)
    as [skylink|e] eqn:Hlink; [|done].
  destruct (DryRun sup) eqn:Hdry; [done|].
  destruct (IsBlocked skylink) eqn:Hlinkblocked.
  { cbn [fst]. rewrite elem_of_app, elem_of_cons.
    intros [?|[?|?%elem_of_nil]]; done. }
  destruct (AddSkylink fileNode skylink) as [e|] eqn:Hadd.
  { cbn [fst]. rewrite elem_of_app, elem_of_cons.
    intros [?|[?|?%elem_of_nil]]; done. }
  pose proof (managedUploadBaseSector_uploads_given sup sector bytes skylink up)
    as Hgiven.
  destruct (managedUploadBaseSector sup sector skylink) as [uploaded err].
  cbn [fst] in Hgiven.
  assert (Hin : EvUploadStream up bytes
                ∈ built ++ [EvAddSkylink fileNode skylink] ++ uploaded ->
                bytes = sector).
  { rewrite !elem_of_app, elem_of_cons.
    intros [?|[[?|?%elem_of_nil]|?]]; try done. by apply Hgiven. }
  intros Hup.
  assert (bytes = sector) as -> by (destruct err; by apply Hin).
  repeat split; try done; eauto 10.
Qed.

(** X15. [managedCreateSkylinkFromFileNode] never uploads on a dry run, and
    it uploads a base sector only after the metadata was validated, the
    file node was found unblocked, the header was found to fit in a sector,
    the skylink built from the Merkle root of exactly the uploaded bytes
    was found unblocked, and that skylink was added to the file node. *)
Theorem managedCreateSkylinkFromFileNode_upload_guarded
  (sup : SkyfileUploadParameters) (skyfileMetadata : SkyfileMetadata)
  (fileNode : FileNode) (fanoutReader : option Reader)
  (up : FileUploadParams) (bytes : list Byte.byte) :
  EvUploadStream up bytes
  ∈ (managedCreateSkylinkFromFileNode encryptionEnabled SkyfileLayout_Encode
       BuildBaseSector encryptBaseSectorWithSkykey
       sup skyfileMetadata fileNode fanoutReader).1 ->
  DryRun sup = false /\
  ValidateSkyfileMetadata skyfileMetadata = None /\
  isFileNodeBlocked fileNode = false /\
  (exists metadataBytes fanoutBytes,
     SkyfileMetadataBytes skyfileMetadata = Ok metadataBytes /\
     skyfileEncodeFanout fileNode fanoutReader = Ok fanoutBytes /\
     (SkyfileLayoutSize + N.of_nat (length metadataBytes)
      + N.of_nat (length fanoutBytes)) mod uint64_max <= SectorSize) /\
  (exists skylink fetchSize,
     NewSkylinkV1 (MerkleRoot bytes) 0 fetchSize = Ok skylink /\
     IsBlocked skylink = false /\
     AddSkylink fileNode skylink = None).
Proof. apply managedCreateSkylinkFromFileNode_upload_inv. Qed.


End SkyfileMore.

Section SkyfileMoreRuns.
#[local] Existing Instance sampleCrypto.
#[local] Existing Instance sampleRenterEnv.

Lemma managedCreateSkylinkFromFileNode_upload_guarded_witness :
  exists up bytes,
    EvUploadStream up bytes
    ∈ (sampleCreateSkylink [Byte.x61] ([Byte.x02], ["abc"%string])).1 /\
    exists skylink fetchSize,
      NewSkylinkV1 (MerkleRoot bytes) 0 fetchSize = Ok skylink /\
      IsBlocked skylink = false.
Proof.
  exists sampleUploadParams, sampleBaseSector.
  assert (Hin : EvUploadStream sampleUploadParams sampleBaseSector
                ∈ (sampleCreateSkylink [Byte.x61] ([Byte.x02], ["abc"%string])).1).
  { apply list_elem_of_In. vm_compute. tauto. }
  split; [exact Hin|].
  destruct (managedCreateSkylinkFromFileNode_upload_guarded _ _ _ _ _ _ _ _ _ _
              Hin) as (_ & _ & _ & _ & link & fetchSize & Hlink & Hfree & _).
  by exists link, fetchSize.
Defined.


End SkyfileMoreRuns.

(** * Properties of the upload entry points (modules/renter/skyfile.go) *)

Section UploadFacts.
Context {crypto : Crypto} {renv : RenterEnv} {uenv : UploadEnv}.
Variable encryptionEnabled : SkyfileUploadParameters -> bool.
Variable SkyfileLayout_Encode : SkyfileLayout -> list Byte.byte.
Variable BuildBaseSector :
  list Byte.byte -> list Byte.byte -> list Byte.byte -> list Byte.byte ->
  list Byte.byte * N.
Variable encryptBaseSectorWithSkykey :
  list Byte.byte -> SkyfileLayout -> Skykey -> result (list Byte.byte).
Variable generateFilekey :
  SkyfileUploadParameters -> SkyfileUploadParameters * option error.
Variable generateCipherKey :
  FileUploadParams -> SkyfileUploadParameters -> FileUploadParams * option error.
Variable managedCreateFileNodeFromReader :
  FileUploadParams -> UploadReader -> UploadReader * result FileNode.
Variable callUploadStreamFromReader :
  FileUploadParams -> UploadReader -> UploadReader * result FileNode.

Abbreviation createFromFileNode :=
  (managedCreateSkylinkFromFileNode encryptionEnabled SkyfileLayout_Encode
     BuildBaseSector encryptBaseSectorWithSkykey).
Abbreviation smallFile :=
  (managedUploadSkyfileSmallFile encryptionEnabled SkyfileLayout_Encode
     BuildBaseSector encryptBaseSectorWithSkykey).
Abbreviation largeFile :=
  (managedUploadSkyfileLargeFile encryptionEnabled SkyfileLayout_Encode
     BuildBaseSector encryptBaseSectorWithSkykey generateCipherKey
     managedCreateFileNodeFromReader callUploadStreamFromReader).
Abbreviation uploadSkyfile :=
  (managedUploadSkyfile encryptionEnabled SkyfileLayout_Encode
     BuildBaseSector encryptBaseSectorWithSkykey generateCipherKey
     managedCreateFileNodeFromReader callUploadStreamFromReader).

(** X17. When [CreateSkylinkFromSiafile] returns without error, skykey
    encryption was not requested, the siafile was opened, the skylink is the
    one [managedCreateSkylinkFromFileNode] made for that file node (with the
    file's name, mode and size as metadata and no fanout reader), and the
    file node was closed, successfully, as the last effect. *)
Theorem CreateSkylinkFromSiafile_success
  (sup : SkyfileUploadParameters) (siaPath : SiaPath)
  (events : list event) (skylink : Skylink) :
  CreateSkylinkFromSiafile encryptionEnabled SkyfileLayout_Encode
    BuildBaseSector encryptBaseSectorWithSkykey sup siaPath
  = (events, (skylink, None)) ->
  encryptionEnabled sup = false /\
  exists fileNode inner,
    OpenSiaFile siaPath = Ok fileNode /\
    createFromFileNode (skyfileEstablishDefaults sup)
      (SkyfileMetadata_of (SiaPath_Name siaPath) (fileNode_Mode fileNode)
         (fileNode_Size fileNode))
      fileNode None = (inner, (skylink, None)) /\
    fileNode_Close fileNode = None /\
    events = inner ++ [EvClose fileNode].
Proof.
  unfold CreateSkylinkFromSiafile.
  destruct (encryptionEnabled sup) eqn:Henc; [done|].
  destruct (OpenSiaFile siaPath) as [fileNode|e] eqn:Hopen; [|done].
  destruct (createFromFileNode _ _ fileNode None)
    as [inner [link err]] eqn:Hinner.
  destruct err as [e|], (fileNode_Close fileNode) as [e'|] eqn:Hclose;
    cbn; intros [= <- <-].
  split; [done|]. by exists fileNode, inner.
Qed.


Lemma smallFile_dry_run (sup : SkyfileUploadParameters)
  (metadataBytes fileBytes : list Byte.byte)
  (up : FileUploadParams) (bytes : list Byte.byte) :
  DryRun sup = true ->
  EvUploadStream up bytes ∉ (smallFile sup metadataBytes fileBytes).1.
Proof.
  intros Hdry. unfold managedUploadSkyfileSmallFile. rewrite Hdry.
  destruct (BuildBaseSector _ [] metadataBytes fileBytes)
    as [baseSector fetchSize].
  destruct (encryptionEnabled sup);
    repeat case_match; cbn; intros Hin;
    repeat (apply elem_of_cons in Hin as [Hin|Hin]; [by simplify_eq|]);
    by apply elem_of_nil in Hin.
Qed.

Lemma largeFile_events (sup : SkyfileUploadParameters) (reader : UploadReader)
  (ev : uploadEvent) :
  ev ∈ (largeFile sup reader).1 ->
  (exists up, (ev = UCreateFileNode up /\ DryRun sup = true)
              \/ (ev = UUploadReader up /\ DryRun sup = false))
  \/ (exists fileNode, ev = UBase (EvClose fileNode))
  \/ (exists metadata fileNode fanoutReader inner,
         ev = UBase inner /\
         inner ∈ (createFromFileNode sup metadata fileNode fanoutReader).1).
Proof.
  unfold managedUploadSkyfileLargeFile.
  destruct (NewSiaPath _) as [siaPath|e]; [|by intros ?%elem_of_nil].
  destruct (fileUploadParams _ _ _ _ _) as [fup|e];
    [|by intros ?%elem_of_nil].
  destruct (generateCipherKey fup sup) as [fup' [e|]];
    [by intros ?%elem_of_nil|].
  assert (Hmade : exists up,
            ((if DryRun sup then UCreateFileNode fup' else UUploadReader fup')
             = UCreateFileNode up /\ DryRun sup = true)
            \/ ((if DryRun sup then UCreateFileNode fup'
                 else UUploadReader fup')
                = UUploadReader up /\ DryRun sup = false)).
  { exists fup'. destruct (DryRun sup); [by left|by right]. }
  set (made := if DryRun sup then UCreateFileNode fup'
               else UUploadReader fup') in *.
  destruct (if DryRun sup then managedCreateFileNodeFromReader _ _ else _)
    as [reader' [fileNode|e]].
  2:{ cbn. intros Hin. apply elem_of_cons in Hin as [->|Hin]; [by left|].
      by apply elem_of_nil in Hin. }
  destruct (reader_SkyfileMetadata reader') as [reader'' [metadata|e]].
  2:{ cbn. intros Hin. apply elem_of_cons in Hin as [->|Hin]; [by left|].
      apply elem_of_cons in Hin as [->|Hin]; [right; left; by eexists|].
      by apply elem_of_nil in Hin. }
  destruct (createFromFileNode sup metadata fileNode _)
    as [inner [link err]] eqn:Hinner.
  assert (Hin : ev ∈ [made] ++ map UBase inner ++ [UBase (EvClose fileNode)] ->
    (exists up, (ev = UCreateFileNode up /\ DryRun sup = true)
                \/ (ev = UUploadReader up /\ DryRun sup = false))
    \/ (exists fileNode, ev = UBase (EvClose fileNode))
    \/ (exists metadata fileNode fanoutReader inner,
           ev = UBase inner /\
           inner ∈ (createFromFileNode sup metadata fileNode fanoutReader).1)).
  { rewrite !elem_of_app, !elem_of_cons.
    intros [[->|?%elem_of_nil]|[Hin|[->|?%elem_of_nil]]]; try done.
    - by left.
    - right. right. apply list_elem_of_fmap in Hin as (x & -> & Hx).
      eexists metadata, fileNode, _, x. split; [done|]. by rewrite Hinner.
    - right. left. by eexists. }
  destruct err; exact Hin.
Qed.

(** X19. On a dry run [managedUploadSkyfile] uploads nothing, whichever
    path it takes: it neither streams file data to the network nor uploads
    a base sector. *)
Theorem managedUploadSkyfile_dry_run
  (sup : SkyfileUploadParameters) (reader : UploadReader) (ev : uploadEvent) :
  DryRun sup = true ->
  ev ∈ (uploadSkyfile sup reader).1 ->
  (forall up, ev <> UUploadReader up) /\
  (forall up bytes, ev <> UBase (EvUploadStream up bytes)).
Proof.
  intros Hdry. unfold managedUploadSkyfile.
  assert (Hlarge : forall r, ev ∈ (largeFile sup r).1 ->
            (forall up, ev <> UUploadReader up) /\
            (forall up bytes, ev <> UBase (EvUploadStream up bytes))).
  { intros r Hin. apply largeFile_events in Hin
      as [(up & [[-> _]|[_ Hno]])|[(fn & ->)|(md & fn & fr & inner & -> & Hin)]];
      try done; try congruence.
    split; [done|]. intros up bytes [= ->].
    apply managedCreateSkylinkFromFileNode_upload_inv in Hin as [Hno _].
    congruence. }
  destruct (io_ReadFull reader SectorSize) as [[reader1 buf] err].
  destruct (_ || _); [|apply Hlarge].
  destruct (reader_SkyfileMetadata reader1) as [reader2 [metadata|e]];
    [|by intros ?%elem_of_nil].
  destruct (ValidateSkyfileMetadata metadata); [by intros ?%elem_of_nil|].
  destruct (SkyfileMetadataBytes metadata) as [mb|e];
    [|by intros ?%elem_of_nil].
  cbn zeta. destruct (_ <=? _); [|apply Hlarge].
  pose proof (smallFile_dry_run sup mb buf) as Hsmall.
  destruct (smallFile sup mb buf) as [events res]. cbn [fst] in *.
  intros Hin. apply list_elem_of_fmap in Hin as (x & -> & Hx).
  split; [done|]. intros up bytes [= ->]. by apply (Hsmall up bytes).
Qed.


(** X21. The three outcomes of [managedUploadSkyfile] after reading the
    first [SectorSize] bytes.  When the read did not end with EOF or
    unexpected EOF (any other read error included), the bytes read are put
    back in front of the reader and the large-file path runs.  When it did
    and the metadata is fetched, valid and marshalled, the small-file path
    runs if the bytes read plus layout plus marshalled metadata fit in one
    sector, the boundary included, and otherwise the bytes are put back
    and the large-file path runs.  When it did and the metadata cannot be
    fetched, is invalid or cannot be marshalled, the call returns that
    error with no effect performed, and neither path runs. *)
Theorem managedUploadSkyfile_dispatch
  (sup : SkyfileUploadParameters) (reader reader1 : UploadReader)
  (buf : list Byte.byte) (err : option error) :
  io_ReadFull reader SectorSize = (reader1, buf, err) ->
  (Contains_nil err io_EOF = false ->
   Contains_nil err io_ErrUnexpectedEOF = false ->
   uploadSkyfile sup reader
   = largeFile sup (reader_AddReadBuffer reader1 buf))
  /\
  (Contains_nil err io_EOF = true \/
   Contains_nil err io_ErrUnexpectedEOF = true ->
   forall reader2 metadata metadataBytes,
     reader_SkyfileMetadata reader1 = (reader2, Ok metadata) ->
     ValidateSkyfileMetadata metadata = None ->
     SkyfileMetadataBytes metadata = Ok metadataBytes ->
     let total := N.of_nat (length buf) + SkyfileLayoutSize
                  + N.of_nat (length metadataBytes) in
     total < uint64_max ->
     (total <= SectorSize ->
      uploadSkyfile sup reader
      = (map UBase (smallFile sup metadataBytes buf).1,
         (smallFile sup metadataBytes buf).2))
     /\
     (SectorSize < total ->
      uploadSkyfile sup reader
      = largeFile sup (reader_AddReadBuffer reader2 buf)))
  /\
  (Contains_nil err io_EOF = true \/
   Contains_nil err io_ErrUnexpectedEOF = true ->
   (forall reader2 e,
      reader_SkyfileMetadata reader1 = (reader2, Err e) ->
      uploadSkyfile sup reader
      = ([], (Skylink_zero,
              Some (AddContext e "unable to get skyfile metadata"))))
   /\
   (forall reader2 metadata,
      reader_SkyfileMetadata reader1 = (reader2, Ok metadata) ->
      (forall e,
         ValidateSkyfileMetadata metadata = Some e ->
         uploadSkyfile sup reader
         = ([], (Skylink_zero, Some (Compose ErrInvalidMetadata e))))
      /\
      (forall e,
         ValidateSkyfileMetadata metadata = None ->
         SkyfileMetadataBytes metadata = Err e ->
         uploadSkyfile sup reader
         = ([], (Skylink_zero,
                 Some (AddContext e
                         "unable to get skyfile metadata bytes")))))).
Proof.
  intros Hread. unfold managedUploadSkyfile. rewrite Hread.
  split; [|split].
  3:{ intros Heof.
      replace (Contains_nil err io_EOF || Contains_nil err io_ErrUnexpectedEOF)
        with true by (destruct Heof as [-> | ->]; by rewrite ?orb_true_r).
      split.
      - intros reader2 e Hmd. by rewrite Hmd.
      - intros reader2 metadata Hmd. rewrite Hmd. split.
        + intros e Hvalid. by rewrite Hvalid.
        + intros e Hvalid Hmb. by rewrite Hvalid, Hmb. }
  - intros -> ->. reflexivity.
  - intros Heof reader2 metadata mb Hmd Hvalid Hmb.
    set (total := N.of_nat (length buf) + SkyfileLayoutSize
                  + N.of_nat (length mb)).
    intros Hrange.
    replace (Contains_nil err io_EOF || Contains_nil err io_ErrUnexpectedEOF)
      with true by (destruct Heof as [-> | ->]; by rewrite ?orb_true_r).
    rewrite Hmd, Hvalid, Hmb. cbn zeta.
    rewrite (N.mod_small (SkyfileLayoutSize + N.of_nat (length mb)))
      by (unfold total in *; lia).
    rewrite N.mod_small by (unfold total in *; lia).
    replace (N.of_nat (length buf) + (SkyfileLayoutSize + N.of_nat (length mb)))
      with total by (unfold total; lia).
    destruct (N.leb_spec total SectorSize) as [Hfits|Hbig].
    + split; [|lia]. intros _.
      by destruct (smallFile sup mb buf).
    + split; [lia|done].
Qed.

(** X22. Once [managedUploadSkyfileLargeFile] has made a file node from the
    reader (by [managedCreateFileNodeFromReader] on a dry run, by
    [callUploadStreamFromReader] otherwise), that step is its first effect
    and closing the file node is its last one, on every path. *)
Theorem managedUploadSkyfileLargeFile_closes
  (sup : SkyfileUploadParameters) (reader reader' : UploadReader)
  (siaPath : SiaPath) (fup fup' : FileUploadParams) (fileNode : FileNode) :
  NewSiaPath (SiaPath_String (sup_SiaPath sup) +:+ ExtendedSuffix)
    = Ok siaPath ->
  fileUploadParams siaPath RenterDefaultDataPieces RenterDefaultParityPieces
    (sup_Force sup) TypePlain = Ok fup ->
  generateCipherKey fup sup = (fup', None) ->
  (if DryRun sup then managedCreateFileNodeFromReader fup' reader
   else callUploadStreamFromReader fup' reader) = (reader', Ok fileNode) ->
  head (largeFile sup reader).1
  = Some (if DryRun sup then UCreateFileNode fup' else UUploadReader fup') /\
  last (largeFile sup reader).1 = Some (UBase (EvClose fileNode)).
Proof.
  intros Hpath Hfup Hkey Hmade. unfold managedUploadSkyfileLargeFile.
  rewrite Hpath, Hfup, Hkey, Hmade.
  destruct (reader_SkyfileMetadata reader') as [reader'' [metadata|e]];
    [|done].
  destruct (createFromFileNode sup metadata fileNode _)
    as [inner [link err]].
  assert (Hlast : forall made : uploadEvent,
            last ([made] ++ map UBase inner ++ [UBase (EvClose fileNode)])
            = Some (UBase (EvClose fileNode))).
  { intros made. by rewrite !app_assoc, last_snoc. }
  destruct err; (split; [done|apply Hlast]).
Qed.

End UploadFacts.

Section UploadRuns.
#[local] Existing Instance sampleCrypto.
#[local] Existing Instance sampleRenterEnv.
#[local] Existing Instance sampleUploadEnv.

Lemma CreateSkylinkFromSiafile_success_witness :
  exists events skylink fileNode,
    sampleCreateSkylinkFromSiafile sampleSUP "abc" = (events, (skylink, None)) /\
    OpenSiaFile "abc"%string = Ok fileNode /\
    last events = Some (EvClose fileNode).
Proof.
  exists (sampleCreateSkylinkFromSiafile sampleSUP "abc").1, 4301324801.
  assert (Hrun : sampleCreateSkylinkFromSiafile sampleSUP "abc"
                 = ((sampleCreateSkylinkFromSiafile sampleSUP "abc").1,
                    (4301324801, None))) by (vm_compute; reflexivity).
  destruct (CreateSkylinkFromSiafile_success _ _ _ _ _ _ _ _ Hrun)
    as (_ & fileNode & inner & Hopen & _ & _ & Hevents).
  exists fileNode. split; [exact Hrun|]. split; [exact Hopen|].
  rewrite Hevents. apply last_snoc.
Defined.


Lemma managedUploadSkyfile_dry_run_witness :
  let events := (sampleManagedUploadSkyfile sampleDrySUP [Byte.x05]).1 in
  let ev := default (UBase EvEncryptBaseSector) (head events) in
  ev ∈ events /\
  (forall up, ev <> UUploadReader up) /\
  (forall up bytes, ev <> UBase (EvUploadStream up bytes)).
Proof.
  intros events ev.
  assert (Hin : ev ∈ events)
    by (apply list_elem_of_In; vm_compute; tauto).
  split; [exact Hin|].
  exact (managedUploadSkyfile_dry_run _ _ _ _ _ _ _ sampleDrySUP [Byte.x05]
           ev eq_refl Hin).
Defined.


Lemma managedUploadSkyfile_dispatch_witness :
  sampleManagedUploadSkyfile sampleSUP [Byte.x05]
  = (map UBase (sampleSmallFile sampleSUP [Byte.x61] [Byte.x05]).1,
     (sampleSmallFile sampleSUP [Byte.x61] [Byte.x05]).2).
Proof.
  refine (proj1 (proj1 (proj2 (managedUploadSkyfile_dispatch _ _ _ _ _ _ _
                                 sampleSUP [Byte.x05] [] [Byte.x05]
                                 (Some io_ErrUnexpectedEOF) eq_refl))
                   (or_intror eq_refl) [] [Byte.x61] [Byte.x61]
                   eq_refl eq_refl eq_refl _) _).
  - reflexivity.
  - cbn. lia.
Defined.

Lemma managedUploadSkyfileLargeFile_closes_witness :
  last (sampleLargeFile sampleSUP [Byte.x05; Byte.x06]).1
  = Some (UBase (EvClose ([Byte.x05], []))).
Proof.
  refine (proj2 (managedUploadSkyfileLargeFile_closes _ _ _ _ _ _ _
                   sampleSUP [Byte.x05; Byte.x06] [] "base-extended"%string
                   _ _ ([Byte.x05], []) eq_refl eq_refl eq_refl eq_refl)).
Defined.

End UploadRuns.

(** * Coinbase and supply (types/block.go) *)

Section SupplyFacts.
Context {senv : supply.SupplyEnv}.

Lemma coinbase_base (height : N) :
  height < uint64_max -> supply.InitialCoinbase < uint64_max ->
  (if (supply.InitialCoinbase <? height)
      || ((supply.InitialCoinbase + uint64_max - height) mod uint64_max
          <? supply.MinimumCoinbase)
   then supply.MinimumCoinbase
   else (supply.InitialCoinbase + uint64_max - height) mod uint64_max)
  = N.max (supply.InitialCoinbase - height) supply.MinimumCoinbase.
Proof.
  intros Hh Hic.
  destruct (N.ltb_spec supply.InitialCoinbase height) as [Hlt|Hge]; cbn.
  - lia.
  - replace (supply.InitialCoinbase + uint64_max - height)
      with ((supply.InitialCoinbase - height) + 1 * uint64_max) by lia.
    rewrite N.Div0.mod_add, N.mod_small by lia.
    destruct (N.ltb_spec (supply.InitialCoinbase - height)
                supply.MinimumCoinbase); lia.
Qed.

(** X23. [CalculateCoinbase] computes the formula of its comment,
    max(InitialCoinbase - height, MinimumCoinbase) * SiacoinPrecision with
    the subtraction taken over the integers, at every [uint64] height: the
    wrap-around of the unsigned subtraction never shows. *)
Theorem CalculateCoinbase_formula (height : N) :
  height < uint64_max -> supply.InitialCoinbase < uint64_max ->
  supply.CalculateCoinbase height
  = supply.Mul
      (supply.NewCurrency64
         (Z.to_N (Z.max (Z.of_N supply.InitialCoinbase - Z.of_N height)
                        (Z.of_N supply.MinimumCoinbase))))
      supply.SiacoinPrecision.
Proof.
  intros Hh Hic. unfold supply.CalculateCoinbase. cbv zeta.
  rewrite coinbase_base by done. do 2 f_equal. lia.
Qed.

Section Laws.
(** [Currency] is an unbounded natural number: [value] reads it, and the
    operations are the arithmetic of the naturals. *)
Variable value : supply.Currency -> N.
Hypothesis value_NewCurrency64 : forall x, value (supply.NewCurrency64 x) = x.
Hypothesis value_Add :
  forall a b, value (supply.Add a b) = value a + value b.
Hypothesis value_Mul :
  forall a b, value (supply.Mul a b) = value a * value b.
Hypothesis value_Mul64 :
  forall a x, value (supply.Mul64 a x) = value a * x.
Hypothesis value_Div64 :
  forall a x, x <> 0 -> value (supply.Div64 a x) = value a / x.

Lemma coinbase_value (height : N) :
  height < uint64_max -> supply.InitialCoinbase < uint64_max ->
  value (supply.CalculateCoinbase height)
  = N.max (supply.InitialCoinbase - height) supply.MinimumCoinbase
    * value supply.SiacoinPrecision.
Proof.
  intros Hh Hic. unfold supply.CalculateCoinbase. cbv zeta.
  by rewrite coinbase_base, value_Mul, value_NewCurrency64.
Qed.

(** X24. The coinbase never falls below MinimumCoinbase * SiacoinPrecision
    and never grows with the height. *)
Theorem CalculateCoinbase_antitone (h1 h2 : N) :
  h1 <= h2 -> h2 < uint64_max -> supply.InitialCoinbase < uint64_max ->
  supply.MinimumCoinbase * value supply.SiacoinPrecision
  <= value (supply.CalculateCoinbase h2)
  /\ value (supply.CalculateCoinbase h2)
     <= value (supply.CalculateCoinbase h1).
Proof.
  intros Hle Hh Hic. rewrite !coinbase_value by lia.
  split; apply N.mul_le_mono_r; lia.
Qed.

Lemma coinbaseSum_closed (n : nat) :
  N.of_nat n < uint64_max ->
  supply.MinimumCoinbase <= supply.InitialCoinbase ->
  supply.InitialCoinbase < uint64_max ->
  2 * supply.coinbaseSum value n
  = value supply.SiacoinPrecision
    * (if N.of_nat n <=? supply.InitialCoinbase - supply.MinimumCoinbase
       then (N.of_nat n + 1) * (2 * supply.InitialCoinbase - N.of_nat n)
       else (supply.InitialCoinbase - supply.MinimumCoinbase + 1)
            * (supply.InitialCoinbase + supply.MinimumCoinbase)
            + 2 * supply.MinimumCoinbase
              * (N.of_nat n
                 - (supply.InitialCoinbase - supply.MinimumCoinbase))).
Proof.
  intros Hn Hmin Hic. induction n as [|k IH].
  - cbn [supply.coinbaseSum]. rewrite coinbase_value by (cbn; lia).
    change (N.of_nat 0) with 0.
    destruct (N.leb_spec 0 (supply.InitialCoinbase - supply.MinimumCoinbase));
      [|lia].
    rewrite N.sub_0_r, N.max_l by lia. lia.
  - cbn [supply.coinbaseSum]. rewrite N.mul_add_distr_l, IH by lia.
    rewrite coinbase_value by lia.
    set (P := value supply.SiacoinPrecision).
    set (IC := supply.InitialCoinbase) in *.
    set (MC := supply.MinimumCoinbase) in *.
    replace (N.of_nat (S k)) with (N.of_nat k + 1) by lia.
    set (m := N.of_nat k) in *.
    destruct (N.leb_spec m (IC - MC)), (N.leb_spec (m + 1) (IC - MC)).
    + rewrite N.max_l by lia.
      replace (2 * IC - (m + 1)) with (2 * (IC - (m + 1)) + (m + 1)) by lia.
      replace (2 * IC - m) with (2 * (IC - (m + 1)) + (m + 2)) by lia.
      lia.
    + assert (Hm : m = IC - MC) by lia.
      rewrite N.max_r by lia.
      replace (m + 1 - (IC - MC)) with 1 by lia.
      replace (2 * IC - m) with (IC + MC) by lia.
      rewrite Hm. lia.
    + lia.
    + rewrite N.max_r by lia.
      replace (m + 1 - (IC - MC)) with (m - (IC - MC) + 1) by lia.
      lia.
Qed.

(** X25. Below the wrap-around of the height, with a coinbase that starts
    at or above its minimum and an even [SiacoinPrecision],
    [CalculateNumSiacoins] returns the genesis siacoins plus the sum of
    [CalculateCoinbase] over all heights from 0 to the given one, plus,
    from the hardfork height on and for a non-zero subsidy frequency, the
    initial Foundation subsidy and one payment of
    [FoundationSubsidyPerBlock * FoundationSubsidyFrequency] per completed
    period: the averaging shortcut of the code loses nothing to rounding. *)
Theorem CalculateNumSiacoins_sum (n : nat) :
  N.of_nat n + 1 < uint64_max ->
  supply.MinimumCoinbase <= supply.InitialCoinbase ->
  supply.InitialCoinbase < uint64_max ->
  N.even (value supply.SiacoinPrecision) = true ->
  (if supply.FoundationHardforkHeight <=? N.of_nat n
   then negb (supply.FoundationSubsidyFrequency =? 0) else true) = true ->
  exists total,
    supply.CalculateNumSiacoins (N.of_nat n) = Ret total /\
    value total
    = value supply.numGenesisSiacoins
      + supply.coinbaseSum value n
      + supply.foundationSum value (N.of_nat n).
Proof.
  intros Hn Hmin Hic Heven Hfreq.
  pose proof (coinbaseSum_closed n ltac:(lia) Hmin Hic) as Hsum.
  apply N.even_spec in Heven as [p Hp].
  unfold supply.CalculateNumSiacoins, supply.foundationSum. cbv zeta.
  set (h := N.of_nat n) in *.
  assert (HD : (supply.InitialCoinbase + uint64_max - supply.MinimumCoinbase)
               mod uint64_max
               = supply.InitialCoinbase - supply.MinimumCoinbase).
  { replace (supply.InitialCoinbase + uint64_max - supply.MinimumCoinbase)
      with ((supply.InitialCoinbase - supply.MinimumCoinbase)
            + 1 * uint64_max) by lia.
    rewrite N.Div0.mod_add. apply N.mod_small. lia. }
  rewrite HD.
  set (core := if h <=? _ then _ else _).
  assert (Hcore : value core
                  = value supply.numGenesisSiacoins
                    + supply.coinbaseSum value n).
  { subst core. revert Hsum.
    set (S := supply.coinbaseSum value n).
    set (IC := supply.InitialCoinbase) in *.
    set (MC := supply.MinimumCoinbase) in *.
    rewrite Hp.
    destruct (N.leb_spec h (IC - MC)) as [Hle|Hgt]; intros Hsum.
    - rewrite value_Add, value_Mul64, value_Div64, value_Add by done.
      rewrite !coinbase_value by (cbn; lia).
      fold IC MC. rewrite Hp, N.sub_0_r, !N.max_l by lia.
      rewrite (N.mod_small (h + 1)) by lia.
      replace ((IC * (2 * p) + (IC - h) * (2 * p)) / 2)
        with (p * (2 * IC - h)).
      2:{ apply N.div_unique_exact; [done|].
          replace (2 * IC - h) with (IC + (IC - h)) by lia. lia. }
      f_equal. nia.
    - rewrite !value_Add, value_Mul64, value_Mul, value_Div64, value_Add,
        value_NewCurrency64 by done.
      rewrite !coinbase_value by (cbn; lia).
      fold IC MC. rewrite Hp, N.sub_0_r, N.max_l, N.max_r by lia.
      rewrite (N.mod_small (IC - MC + 1)) by lia.
      replace ((IC * (2 * p) + MC * (2 * p)) / 2) with (p * (IC + MC)).
      2:{ apply N.div_unique_exact; [done|]. lia. }
      rewrite <- N.add_assoc. f_equal. nia. }
  destruct (N.leb_spec supply.FoundationHardforkHeight h) as [Hf|Hf].
  - destruct (N.eqb_spec supply.FoundationSubsidyFrequency 0) as [|Hnz];
      [done|].
    eexists. split; [reflexivity|].
    rewrite !value_Add, !value_Mul64, Hcore. lia.
  - exists core. split; [reflexivity|]. rewrite Hcore. lia.
Qed.

End Laws.

End SupplyFacts.

Section SupplyRuns.
#[local] Existing Instance sampleSupplyEnv.

Lemma CalculateCoinbase_formula_witness :
  supply.CalculateCoinbase 12 = 8 /\ supply.CalculateCoinbase 3 = 14.
Proof.
  split.
  - exact (CalculateCoinbase_formula 12 eq_refl eq_refl).
  - exact (CalculateCoinbase_formula 3 eq_refl eq_refl).
Defined.

Lemma CalculateCoinbase_antitone_witness :
  4 * 2 <= supply.CalculateCoinbase 9 /\
  supply.CalculateCoinbase 9 <= supply.CalculateCoinbase 3.
Proof.
  apply (CalculateCoinbase_antitone (senv := sampleSupplyEnv) (fun x : N => x)
           (fun _ => eq_refl) (fun _ _ => eq_refl) 3 9);
    vm_compute; congruence.
Defined.

Lemma CalculateNumSiacoins_sum_witness :
  exists total : N,
    supply.CalculateNumSiacoins (senv := sampleSupplyEnv) (N.of_nat 15)
    = Ret total /\
    total
    = supply.numGenesisSiacoins (senv := sampleSupplyEnv)
      + supply.coinbaseSum (senv := sampleSupplyEnv) (fun x : N => x) 15
      + supply.foundationSum (senv := sampleSupplyEnv) (fun x : N => x)
          (N.of_nat 15).
Proof.
  apply (CalculateNumSiacoins_sum (senv := sampleSupplyEnv) (fun x : N => x)
           (fun _ => eq_refl) (fun _ _ => eq_refl) (fun _ _ => eq_refl)
           (fun _ _ => eq_refl) (fun _ _ _ => eq_refl) 15);
    first [reflexivity | vm_compute; congruence].
Defined.

End SupplyRuns.
